(** * AXT-MCP: the Notion sync connector (src/connectors/notionSync.js)

    A shallow embedding of the connector: JavaScript values as an inductive
    type, exceptions as an explicit result type, and the module state (the
    cached client, the remote service, the console) threaded through a small
    state-and-exception monad. *)

From Stdlib Require Import String List ZArith Bool Lia.
Import ListNotations.
Open Scope string_scope.

(** ** JavaScript values

    The data the connector touches is JSON-shaped.  Objects keep their own
    properties in creation order; numbers are restricted to integers (the
    connector does no arithmetic, numbers only matter through truthiness). *)

#[warnings="-register-all"]
Inductive value : Type :=
| VUndefined
| VNull
| VBool (b : bool)
| VNum (n : Z)
| VStr (s : string)
| VArr (elems : list value)
| VObj (fields : list (string * value)).

(** A thrown [Error] instance: the SDK, [initializeClient] and the language
    itself (TypeError) all throw [Error] objects, whose [message] is a string. *)
Record JsError : Type := mkError { err_name : string; err_message : string }.

Inductive result (A : Type) : Type :=
| Ok (a : A)
| Throw (e : JsError).
Arguments Ok {A} a.
Arguments Throw {A} e.

Definition bindR {A B} (r : result A) (k : A -> result B) : result B :=
  match r with
  | Ok a => k a
  | Throw e => Throw e
  end.

Declare Scope js_scope.
Delimit Scope js_scope with js.
Notation "'let?' x ':=' e 'in' k" := (bindR e (fun x => k))
  (at level 10, x name, e at level 100, k at level 200) : js_scope.
Open Scope js_scope.

Definition type_error (msg : string) : JsError := mkError "TypeError" msg.

Definition cannot_read (what key : string) : JsError :=
  type_error ("Cannot read properties of " ++ what ++ " (reading '" ++ key ++ "')").

Definition not_a_function (expr : string) : JsError :=
  type_error (expr ++ " is not a function").

Definition not_iterable (expr : string) : JsError :=
  type_error (expr ++ " is not iterable").

(** Truthiness, as used by [if (x)], [!x] and [x || y]. *)
Definition truthy (v : value) : bool :=
  match v with
  | VUndefined | VNull => false
  | VBool b => b
  | VNum n => negb (n =? 0)%Z
  | VStr s => negb (s =? "")
  | VArr _ | VObj _ => true
  end.

(** [a || b] (the right operand is always a pure expression in this module). *)
Definition js_or (a b : value) : value := if truthy a then a else b.

Definition is_nullish (v : value) : bool :=
  match v with
  | VUndefined | VNull => true
  | _ => false
  end.

(** A default parameter or destructuring default: applies to [undefined] only. *)
Definition default_param (v dflt : value) : value :=
  match v with
  | VUndefined => dflt
  | _ => v
  end.

(** [x === 'literal'] *)
Definition strict_eq_str (v : value) (s : string) : bool :=
  match v with
  | VStr t => t =? s
  | _ => false
  end.

Fixpoint own_prop (k : string) (fields : list (string * value)) : option value :=
  match fields with
  | [] => None
  | (k', v) :: rest => if k' =? k then Some v else own_prop k rest
  end.

Definition nullish_name (v : value) : string :=
  match v with
  | VNull => "null"
  | _ => "undefined"
  end.

(** [o.k]: reading a property of [undefined] or [null] throws; a missing
    property reads as [undefined].  None of the property names read by the
    connector exists on the prototypes of arrays, strings, numbers or
    booleans, so those read as [undefined] too. *)
Definition get_prop (o : value) (k : string) : result value :=
  match o with
  | VUndefined | VNull => Throw (cannot_read (nullish_name o) k)
  | VObj fields =>
      Ok (match own_prop k fields with Some v => v | None => VUndefined end)
  | _ => Ok VUndefined
  end.

(** [o?.k] *)
Definition opt_prop (o : value) (k : string) : result value :=
  if is_nullish o then Ok VUndefined else get_prop o k.

(** Strings are held as UTF-8 bytes; JavaScript walks a string by character.
    A character is a leading byte with the continuation bytes (10xxxxxx) that
    follow it.  [split_characters] returns the continuation bytes a string
    starts with (none in well-formed text) and the characters after them. *)
Definition is_continuation (c : Ascii.ascii) : bool :=
  let n := Ascii.nat_of_ascii c in
  ((128 <=? n)%nat && (n <? 192)%nat)%bool.

Fixpoint split_characters (s : string) : string * list string :=
  match s with
  | EmptyString => (EmptyString, [])
  | String c rest =>
      let (continuation, characters) := split_characters rest in
      if is_continuation c then (String c continuation, characters)
      else (EmptyString, String c continuation :: characters)
  end.

Definition characters (s : string) : list string :=
  let (stray, rest) := split_characters s in
  match stray with
  | EmptyString => rest
  | _ => stray :: rest
  end.

(** [o?.[0]]; on a string, its first character (a character outside the
    basic plane would read as half of it, which nothing here tells apart:
    only properties are read off the result). *)
Definition opt_first (o : value) : result value :=
  match o with
  | VUndefined | VNull => Ok VUndefined
  | VArr elems => Ok (nth 0 elems VUndefined)
  | VStr s =>
      Ok (match characters s with
          | [] => VUndefined
          | c :: _ => VStr c
          end)
  | VObj fields =>
      Ok (match own_prop "0" fields with Some v => v | None => VUndefined end)
  | _ => Ok VUndefined
  end.

Fixpoint mapR {A B} (f : A -> result B) (l : list A) : result (list B) :=
  match l with
  | [] => Ok []
  | x :: rest =>
      let? y := f x in
      let? ys := mapR f rest in
      Ok (y :: ys)
  end.

(** [recv.map(f)], the member expression being written [callee] in the
    source: only arrays have a [map] method. *)
Definition call_map (recv : value) (callee : string)
    (f : value -> result value) : result (list value) :=
  match recv with
  | VArr elems => mapR f elems
  | VUndefined | VNull => Throw (cannot_read (nullish_name recv) "map")
  | _ => Throw (not_a_function callee)
  end.

(** ** Schema transforms *)

Definition transformMCPToNotion (useCaseData : value) : result value :=
  let? name := get_prop useCaseData "name" in
  let? description := get_prop useCaseData "description" in
  let? status := get_prop useCaseData "status" in
  let? tags := get_prop useCaseData "tags" in
  let? multi_select :=
    call_map (js_or tags (VArr [])) "(useCaseData.tags || []).map"
      (fun tag => Ok (VObj [("name", tag)])) in
  Ok (VObj
    [ ("Name", VObj
        [("title", VArr
            [VObj [("text", VObj [("content", js_or name (VStr "Untitled"))])]])]);
      ("Description", VObj
        [("rich_text", VArr
            [VObj [("text", VObj [("content", js_or description (VStr ""))])]])]);
      ("Status", VObj
        [("select", VObj [("name", js_or status (VStr "Draft"))])]);
      ("Tags", VObj [("multi_select", VArr multi_select)]) ]).

Definition transformNotionToMCP (notionPage : value) : result value :=
  let? props := get_prop notionPage "properties" in
  let? id := get_prop notionPage "id" in
  let? name :=
    (let? n := get_prop props "Name" in
     let? t := opt_prop n "title" in
     let? h := opt_first t in
     let? x := opt_prop h "text" in
     opt_prop x "content") in
  let? description :=
    (let? d := get_prop props "Description" in
     let? t := opt_prop d "rich_text" in
     let? h := opt_first t in
     let? x := opt_prop h "text" in
     opt_prop x "content") in
  let? status :=
    (let? s := get_prop props "Status" in
     let? sel := opt_prop s "select" in
     opt_prop sel "name") in
  let? tags :=
    (let? t := get_prop props "Tags" in
     let? ms := opt_prop t "multi_select" in
     if is_nullish ms then Ok VUndefined
     else
       let? names := call_map ms "props.Tags?.multi_select?.map"
                       (fun tag => get_prop tag "name") in
       Ok (VArr names)) in
  let? createdTime := get_prop notionPage "createdTime" in
  let? lastEditedTime := get_prop notionPage "lastEditedTime" in
  Ok (VObj
    [ ("notionPageId", id);
      ("name", js_or name (VStr ""));
      ("description", js_or description (VStr ""));
      ("status", js_or status (VStr ""));
      ("tags", js_or tags (VArr []));
      ("createdAt", createdTime);
      ("updatedAt", lastEditedTime) ]).

(** ** Module state and the remote service *)

(** [process.env], as far as the connector reads it. *)
Record Env : Type := mkEnv {
  NOTION_API_KEY : option string;
  NOTION_DATABASE_ID : option string
}.

Record Config : Type := mkConfig { apiKey : string; databaseId : string }.

(** [process.env.X || ''] *)
Definition env_or_empty (x : option string) : string :=
  match x with
  | Some s => s
  | None => ""
  end.

Definition notionConfig (env : Env) : Config :=
  {| apiKey := env_or_empty (NOTION_API_KEY env);
     databaseId := env_or_empty (NOTION_DATABASE_ID env) |}.

(** [new Client({ auth })] *)
Record Client : Type := mkClient { auth : string }.

(** One request sent to the remote API, with the client that sent it. *)
Inductive call : Type :=
| DatabasesQuery (c : Client) (args : value)
| PagesUpdate (c : Client) (args : value)
| PagesCreate (c : Client) (args : value).

Definition is_push_call (c : call) : bool :=
  match c with
  | DatabasesQuery _ _ => false
  | PagesUpdate _ _ | PagesCreate _ _ => true
  end.

Definition push_attempts (t : list call) : nat := length (filter is_push_call t).

Inductive log_entry : Type :=
| ConsoleError (label : string) (error : JsError)
| LogPulled (n : nat)      (* `Pulled ${n} records from Notion` *)
| LogPushed (n : nat).     (* `Pushed ${n} records to Notion` *)

(** The [results] object of [syncNotionData]. *)
Record SyncResult : Type := mkResults {
  pulled : list value;
  pushed : list value;
  errors : list value
}.

Definition missing_credential : JsError :=
  mkError "Error" "NOTION_API_KEY environment variable is required".

(** [for (const x of v)]: arrays and strings are the iterable values here; a
    string is walked character by character. *)
Definition chars (s : string) : list value := map VStr (characters s).

Definition iterate (v : value) (expr : string) : result (list value) :=
  match v with
  | VArr elems => Ok elems
  | VStr s => Ok (chars s)
  | _ => Throw (not_iterable expr)
  end.

(** [const { k } = options] *)
Definition destructure_prop (o : value) (k : string) : result value :=
  match o with
  | VUndefined | VNull =>
      Throw (type_error ("Cannot destructure property '" ++ k
                         ++ "' of 'options' as it is " ++ nullish_name o ++ "."))
  | _ => get_prop o k
  end.

(** The arrow function [fetchNotionRecords] maps over [response.results]. *)
Definition page_to_record (page : value) : result value :=
  let? id := get_prop page "id" in
  let? properties := get_prop page "properties" in
  let? created_time := get_prop page "created_time" in
  let? last_edited_time := get_prop page "last_edited_time" in
  Ok (VObj [ ("id", id);
             ("properties", properties);
             ("createdTime", created_time);
             ("lastEditedTime", last_edited_time) ]).

Section Connector.

(** The remote service: any state, any deterministic answer to each call. *)
Variable R : Type.
Variable remote : call -> R -> result value * R.

(** The module-level constant [notionConfig]. *)
Variable cfg : Config.

Record world : Type := mkWorld {
  notion : option Client;    (* [let notion = null] *)
  net : R;
  trace : list call;         (* requests sent so far, oldest first *)
  console : list log_entry
}.

Definition M (A : Type) : Type := world -> result A * world.

Definition ret {A} (a : A) : M A := fun w => (Ok a, w).

Definition throw {A} (e : JsError) : M A := fun w => (Throw e, w).

Definition bind {A B} (m : M A) (k : A -> M B) : M B :=
  fun w =>
    match m w with
    | (Ok a, w') => k a w'
    | (Throw e, w') => (Throw e, w')
    end.

Definition lift {A} (r : result A) : M A := fun w => (r, w).

(** [try { body } catch (error) { handler }] *)
Definition try_catch {A} (body : M A) (handler : JsError -> M A) : M A :=
  fun w =>
    match body w with
    | (Ok a, w') => (Ok a, w')
    | (Throw e, w') => handler e w'
    end.

Definition console_write (entry : log_entry) : M unit :=
  fun w =>
    (Ok tt, {| notion := notion w; net := net w; trace := trace w;
               console := console w ++ [entry] |}).

Local Notation "x <- m ;; k" := (bind m (fun x => k))
  (at level 61, m at next level, right associativity).
Local Notation "m ;; k" := (bind m (fun _ => k))
  (at level 61, right associativity).

Definition initializeClient : M Client :=
  fun w =>
    if negb (truthy (VStr (apiKey cfg))) then (Throw missing_credential, w)
    else
      let c := {| auth := apiKey cfg |} in
      (Ok c, {| notion := Some c; net := net w; trace := trace w;
                console := console w |}).

(** [if (!notion) initializeClient();] *)
Definition ensure_client : M unit :=
  fun w =>
    match notion w with
    | Some _ => (Ok tt, w)
    | None => (initializeClient ;; ret tt) w
    end.

(** A method of the cached client: sends [mk c args] and awaits the answer.
    [member] is the first property read off [notion]. *)
Definition client_call (mk : Client -> value -> call) (member : string)
    (args : value) : M value :=
  fun w =>
    match notion w with
    | None => (Throw (cannot_read "null" member), w)
    | Some c =>
        let (answer, net') := remote (mk c args) (net w) in
        (answer, {| notion := notion w; net := net'; trace := trace w ++ [mk c args];
                    console := console w |})
    end.

(** [databaseId || notionConfig.databaseId] *)
Definition database_or_default (given : value) : value :=
  js_or given (VStr (databaseId cfg)).

Definition fetchNotionRecords (databaseId filter : value) : M (list value) :=
  let filter := default_param filter VNull in
  ensure_client ;;
  try_catch
    (let query :=
       VObj (("database_id", database_or_default databaseId)
             :: (if truthy filter then [("filter", filter)] else [])) in
     response <- client_call DatabasesQuery "databases" query ;;
     results <- lift (get_prop response "results") ;;
     lift (call_map results "response.results.map" page_to_record))
    (fun error =>
       console_write (ConsoleError "Error fetching Notion records:" error) ;;
       throw error).

Definition pushNotionRecord (databaseId data pageId : value) : M value :=
  let pageId := default_param pageId VNull in
  ensure_client ;;
  try_catch
    (if truthy pageId then
       response <- client_call PagesUpdate "pages"
                     (VObj [("page_id", pageId); ("properties", data)]) ;;
       ret response
     else
       response <- client_call PagesCreate "pages"
                     (VObj [ ("parent",
                              VObj [("database_id", database_or_default databaseId)]);
                             ("properties", data) ]) ;;
       ret response)
    (fun error =>
       console_write (ConsoleError "Error pushing Notion record:" error) ;;
       throw error).

(** The body of the [for (const record of mcpRecords)] loop, on the records
    still to visit. *)
Fixpoint push_loop (databaseId : value) (records : list value)
    (results : SyncResult) : M SyncResult :=
  match records with
  | [] => ret results
  | record :: rest =>
      results' <-
        try_catch
          (properties <- lift (get_prop record "properties") ;;
           notionPageId <- lift (get_prop record "notionPageId") ;;
           response <- pushNotionRecord databaseId properties
                         (js_or notionPageId VNull) ;;
           ret {| pulled := pulled results;
                  pushed := pushed results ++ [response];
                  errors := errors results |})
          (fun error =>
             ret {| pulled := pulled results;
                    pushed := pushed results;
                    errors := errors results
                      ++ [VObj [("record", record);
                                ("error", VStr (err_message error))]] |}) ;;
      push_loop databaseId rest results'
  end.

Definition syncNotionData (options : value) : M SyncResult :=
  databaseId <- lift (destructure_prop options "databaseId") ;;
  direction <- lift (destructure_prop options "direction") ;;
  mcpRecords <- lift (destructure_prop options "mcpRecords") ;;
  let direction := default_param direction (VStr "pull") in
  let mcpRecords := default_param mcpRecords (VArr []) in
  let results := {| pulled := []; pushed := []; errors := [] |} in
  try_catch
    (results <-
       (if strict_eq_str direction "pull" || strict_eq_str direction "bidirectional"
        then
          fetched <- fetchNotionRecords databaseId VUndefined ;;
          console_write (LogPulled (length fetched)) ;;
          ret {| pulled := fetched; pushed := pushed results;
                 errors := errors results |}
        else ret results) ;;
     results <-
       (if strict_eq_str direction "push" || strict_eq_str direction "bidirectional"
        then
          records <- lift (iterate mcpRecords "mcpRecords") ;;
          results <- push_loop databaseId records results ;;
          console_write (LogPushed (length (pushed results))) ;;
          ret results
        else ret results) ;;
     ret results)
    (fun error =>
       console_write (ConsoleError "Sync error:" error) ;;
       throw error).

End Connector.

Arguments mkWorld {R} _ _ _ _.
Arguments notion {R} _.
Arguments net {R} _.
Arguments trace {R} _.
Arguments console {R} _.
Arguments ret {R A} a _.
Arguments throw {R A} e _.
Arguments bind {R A B} m k _.
Arguments lift {R A} r _.
Arguments try_catch {R A} body handler _.
Arguments console_write {R} entry _.
Arguments initializeClient {R} cfg _.
Arguments ensure_client {R} cfg _.
Arguments client_call {R} remote mk member args _.
Arguments fetchNotionRecords {R} remote cfg databaseId filter _.
Arguments pushNotionRecord {R} remote cfg databaseId data pageId _.
Arguments push_loop {R} remote cfg databaseId records results _.
Arguments syncNotionData {R} remote cfg options _.

(** ** Declared input shapes of the transforms

    Executable shape checkers for the two record types of the data model.
    "Optional" admits a missing property, [undefined] and [null] (the remote
    API writes [null] for an unset select). *)

Definition is_string (v : value) : bool :=
  match v with
  | VStr _ => true
  | _ => false
  end.

Definition optional (p : value -> bool) (v : value) : bool := is_nullish v || p v.

Definition field_of (fields : list (string * value)) (k : string) : value :=
  match own_prop k fields with
  | Some v => v
  | None => VUndefined
  end.

Definition object_with (checks : list (string * (value -> bool))) (v : value) : bool :=
  match v with
  | VObj fields => forallb (fun kp => snd kp (field_of fields (fst kp))) checks
  | _ => false
  end.

Definition array_of (p : value -> bool) (v : value) : bool :=
  match v with
  | VArr elems => forallb p elems
  | _ => false
  end.

(** LocalRecord: every field optional. *)
Definition is_LocalRecord : value -> bool :=
  object_with
    [ ("notionPageId", optional is_string);
      ("name", optional is_string);
      ("description", optional is_string);
      ("status", optional is_string);
      ("tags", optional (array_of is_string));
      ("createdAt", optional is_string);
      ("updatedAt", optional is_string) ].

(** One element of a title or rich-text array. *)
Definition is_text_item : value -> bool :=
  object_with [("text", optional (object_with [("content", optional is_string)]))].

(** One option of a multi-select: an object, whose name may be absent like
    every other nested field. *)
Definition is_select_option : value -> bool :=
  object_with [("name", optional is_string)].

Definition is_properties : value -> bool :=
  object_with
    [ ("Name", optional (object_with [("title", optional (array_of is_text_item))]));
      ("Description",
         optional (object_with [("rich_text", optional (array_of is_text_item))]));
      ("Status",
         optional (object_with
                     [("select", optional (object_with [("name", optional is_string)]))]));
      ("Tags",
         optional (object_with [("multi_select", optional (array_of is_select_option))])) ].

(** RemoteRecord, as [fetchNotionRecords] builds it. *)
Definition is_RemoteRecord : value -> bool :=
  object_with
    [ ("id", is_string);
      ("properties", is_properties);
      ("createdTime", is_string);
      ("lastEditedTime", is_string) ].

(** A nested path into a value, and what it resolves to: [None] when any step
    of the path is missing ([undefined], [null], or an empty array at [First]). *)
Inductive step : Type :=
| Key (k : string)
| First.

Definition step_into (v : value) (s : step) : option value :=
  match s, v with
  | Key k, VObj fields => own_prop k fields
  | First, VArr (x :: _) => Some x
  | _, _ => None
  end.

Fixpoint resolve (v : value) (path : list step) : option value :=
  if is_nullish v then None
  else
    match path with
    | [] => Some v
    | s :: rest =>
        match step_into v s with
        | Some v' => resolve v' rest
        | None => None
        end
    end.

Definition name_path : list step :=
  [Key "Name"; Key "title"; First; Key "text"; Key "content"].
Definition description_path : list step :=
  [Key "Description"; Key "rich_text"; First; Key "text"; Key "content"].
Definition status_path : list step := [Key "Status"; Key "select"; Key "name"].
Definition tags_path : list step := [Key "Tags"; Key "multi_select"].

(** The RemoteRecord that stores [properties] under the given identity. *)
Definition stored_as (id properties createdTime lastEditedTime : value) : value :=
  VObj [ ("id", id); ("properties", properties);
         ("createdTime", createdTime); ("lastEditedTime", lastEditedTime) ].

(** The responses of the successful attempts, in attempt order. *)
Definition responses_of (outcomes : list (value * result value)) : list value :=
  flat_map (fun ro => match snd ro with
                      | Ok response => [response]
                      | Throw _ => []
                      end) outcomes.

(** The [{ record, error }] entries of the failed attempts, in attempt order. *)
Definition failures_of (outcomes : list (value * result value)) : list value :=
  flat_map (fun ro => match snd ro with
                      | Ok _ => []
                      | Throw e => [VObj [("record", fst ro);
                                          ("error", VStr (err_message e))]]
                      end) outcomes.

(** [v.k] for a value known not to be [undefined] or [null]. *)
Definition field_of_value (v : value) (k : string) : value :=
  match v with
  | VObj fields => field_of fields k
  | _ => VUndefined
  end.

(** The string a path leads to, [""] when the path is missing. *)
Definition string_at (v : value) (path : list step) : string :=
  match resolve v path with
  | Some (VStr s) => s
  | _ => ""
  end.

(** The names of the options of a multi-select. *)
Definition option_names (opts : list value) : list value :=
  map (fun o => field_of_value o "name") opts.

Definition tags_at (v : value) (path : list step) : list value :=
  match resolve v path with
  | Some (VArr opts) => option_names opts
  | _ => []
  end.

(** [response.results.map(...)] *)
Definition records_of_response (response : value) : result (list value) :=
  let? results := get_prop response "results" in
  call_map results "response.results.map" page_to_record.

(** The [errors] entry that records a push refused for want of a credential. *)
Definition credential_error_entry (record : value) : value :=
  VObj [("record", record); ("error", VStr (err_message missing_credential))].

(** ** Derived notions used to state the properties of the stateful code *)

Section ConnectorNotions.

Variable R : Type.
Variable remote : call -> R -> result value * R.
Variable cfg : Config.

(** The client an operation works with once [if (!notion) initializeClient()]
    has run: the cached one, else a fresh one when a credential is set. *)
Definition the_client (w : world R) : option Client :=
  match notion w with
  | Some c => Some c
  | None => if apiKey cfg =? "" then None else Some {| auth := apiKey cfg |}
  end.

(** State invariant of the module: a cached client was built from the
    configured, non-empty credential. *)
Definition client_consistent (w : world R) : Prop :=
  forall c, notion w = Some c -> c = {| auth := apiKey cfg |} /\ apiKey cfg <> "".

(** The state in which the module is loaded. *)
Definition initial_world (n : R) : world R :=
  {| notion := None; net := n; trace := []; console := [] |}.

Definition write_console (w : world R) (entries : list log_entry) : world R :=
  {| notion := notion w; net := net w; trace := trace w;
     console := console w ++ entries |}.

(** What the push loop attempts for one record (the body of its [try]). *)
Definition push_attempt (databaseId record : value) : M R value :=
  bind (lift (get_prop record "properties")) (fun properties =>
  bind (lift (get_prop record "notionPageId")) (fun notionPageId =>
  pushNotionRecord remote cfg databaseId properties (js_or notionPageId VNull))).

(** The outcomes of attempting the records one after the other, each attempt
    starting in the state the previous one left. *)
Fixpoint push_outcomes (databaseId : value) (records : list value) (w : world R)
    : list (value * result value) * world R :=
  match records with
  | [] => ([], w)
  | record :: rest =>
      let (outcome, w1) := push_attempt databaseId record w in
      let (outcomes, w2) := push_outcomes databaseId rest w1 in
      ((record, outcome) :: outcomes, w2)
  end.


Definition with_client (w : world R) (c : Client) : world R :=
  {| notion := Some c; net := net w; trace := trace w; console := console w |}.

(** The request [pushNotionRecord] sends. *)
Definition push_request (c : Client) (db data pageId : value) : call :=
  if truthy pageId then
    PagesUpdate c (VObj [("page_id", pageId); ("properties", data)])
  else
    PagesCreate c
      (VObj [ ("parent",
               VObj [("database_id", if truthy db then db else VStr (databaseId cfg))]);
              ("properties", data) ]).

(** The state after [request] was sent from [w] by client [c] and answered. *)
Definition after_call (w : world R) (c : Client) (request : call) (net' : R)
    (logged : list log_entry) : world R :=
  {| notion := Some c; net := net'; trace := trace w ++ [request];
     console := console w ++ logged |}.

(** The request [fetchNotionRecords] sends. *)
Definition fetch_request (c : Client) (db filter : value) : call :=
  DatabasesQuery c
    (VObj (("database_id", if truthy db then db else VStr (databaseId cfg))
           :: (if truthy filter then [("filter", filter)] else []))).


End ConnectorNotions.

Arguments the_client {R} cfg w.
Arguments client_consistent {R} cfg w.
Arguments initial_world {R} n.
Arguments write_console {R} w entries.
Arguments push_attempt {R} remote cfg databaseId record _.
Arguments push_outcomes {R} remote cfg databaseId records w.
Arguments with_client {R} w c.
Arguments after_call {R} w c request net' logged.

(** ** Concrete remotes, configurations and records *)

(** A remote that answers every call, except that updating page "B" is
    rejected; it counts the calls it has received. *)
Definition demo_remote (c : call) (n : nat) : result value * nat :=
  match c with
  | DatabasesQuery _ _ => (Ok (VObj [("results", VArr [])]), S n)
  | PagesUpdate _ args =>
      if strict_eq_str (field_of_value args "page_id") "B"
      then (Throw (mkError "APIResponseError" "validation failed"), S n)
      else (Ok (VObj [("object", VStr "page");
                      ("id", field_of_value args "page_id")]), S n)
  | PagesCreate _ _ => (Ok (VObj [("object", VStr "page"); ("id", VStr "new")]), S n)
  end.

(** A remote that is unreachable. *)
Definition down_remote (c : call) (n : nat) : result value * nat :=
  (Throw (mkError "RequestTimeoutError" "Request to Notion API has timed out"), S n).

Definition demo_config : Config := {| apiKey := "secret"; databaseId := "db-default" |}.

(** A remote that answers the calls it receives with the answers of a script,
    one after the other: any pattern of successes and failures. *)
Definition scripted_remote (c : call) (script : list (result value))
    : result value * list (result value) :=
  match script with
  | [] => (Throw (mkError "Error" "nothing scripted"), [])
  | answer :: rest => (answer, rest)
  end.

Definition no_credential_env : Env :=
  {| NOTION_API_KEY := None; NOTION_DATABASE_ID := Some "db-default" |}.

Definition record_A : value :=
  VObj [ ("notionPageId", VStr "A");
         ("properties", VObj [("Status", VObj [("select", VObj [("name", VStr "Active")])])]) ].
Definition record_B : value :=
  VObj [ ("notionPageId", VStr "B"); ("properties", VObj []) ].
Definition record_C : value :=
  VObj [ ("properties", VObj []) ].

Definition sync_options (direction : string) (records : list value) : value :=
  VObj [ ("databaseId", VStr "db1"); ("direction", VStr direction);
         ("mcpRecords", VArr records) ].

Definition demo_client : Client := {| auth := "secret" |}.





(** A page whose only multi-select option has no name, and one whose only
    option is [null]. *)
Definition page_with_unnamed_option : value :=
  VObj [ ("id", VStr "p1");
         ("properties",
            VObj [("Tags", VObj [("multi_select", VArr [VObj [("id", VStr "o1")]])])]);
         ("createdTime", VStr "t1"); ("lastEditedTime", VStr "t2") ].

Definition page_with_null_option : value :=
  VObj [ ("id", VStr "p1");
         ("properties", VObj [("Tags", VObj [("multi_select", VArr [VNull])])]);
         ("createdTime", VStr "t1"); ("lastEditedTime", VStr "t2") ].

(** A remote whose database holds one page. *)
Definition one_page_response : value :=
  VObj [("results", VArr [VObj [("id", VStr "p1"); ("created_time", VStr "t1")]])].

Definition one_page_remote (c : call) (n : nat) : result value * nat :=
  (Ok one_page_response, S n).

(** ** Notions used to state the further properties *)

Definition non_nullish (v : value) : bool := negb (is_nullish v).

Definition is_array (v : value) : bool :=
  match v with
  | VArr _ => true
  | _ => false
  end.

(** What [(tags || []).map(...)] accepts: a falsy value or an array. *)
Definition mappable_tags (tags : value) : bool := negb (truthy tags) || is_array tags.

(** What [props.Tags?.multi_select?.map(tag => tag.name)] accepts: nothing at
    all, or an array without [undefined] or [null] elements. *)
Definition mappable_options (multi_select : value) : bool :=
  is_nullish multi_select || array_of non_nullish multi_select.

(** [props.Tags?.multi_select] *)
Definition multi_select_of (props : value) : value :=
  field_of_value (field_of_value props "Tags") "multi_select".

(** Local record to remote properties, stored, and back. *)
Definition round_trip (L id createdTime lastEditedTime : value) : result value :=
  let? properties := transformMCPToNotion L in
  transformNotionToMCP (stored_as id properties createdTime lastEditedTime).

(** The record [fetchNotionRecords] makes of a page that is not [undefined]
    or [null]. *)
Definition record_of_page (page : value) : value :=
  VObj [ ("id", field_of_value page "id");
         ("properties", field_of_value page "properties");
         ("createdTime", field_of_value page "created_time");
         ("lastEditedTime", field_of_value page "last_edited_time") ].

(** The requests the push loop sends for one record: none for [undefined] or
    [null], else the one of [pushNotionRecord]. *)
Definition requests_for (cfg : Config) (c : Client) (db record : value) : list call :=
  if is_nullish record then []
  else
    [ if truthy (field_of_value record "notionPageId") then
        PagesUpdate c
          (VObj [ ("page_id", field_of_value record "notionPageId");
                  ("properties", field_of_value record "properties") ])
      else
        PagesCreate c
          (VObj [ ("parent",
                   VObj [("database_id",
                          if truthy db then db else VStr (databaseId cfg))]);
                  ("properties", field_of_value record "properties") ]) ].

(** ** Tactics *)

Ltac split_value v :=
  destruct v as [ | | ?b | ?n | ?s | ?elems | ?fields ];
  simpl in *; try discriminate.

Ltac unfold_reads :=
  unfold optional, object_with, array_of, opt_prop, opt_first, get_prop,
         field_of, field_of_value, string_at in *;
  simpl in *.

Ltac read_done := eexists; repeat split; reflexivity.

Ltac case_reads :=
  repeat (match goal with
          | |- context [own_prop ?k ?f] => destruct (own_prop k f); simpl in *
          | |- context [match ?v with VUndefined => _ | _ => _ end] =>
              is_var v; split_value v
          | |- context [is_nullish ?v] => is_var v; split_value v
          | |- context [js_or ?v _] => is_var v; split_value v
          | |- context [match ?l with [] => _ | _ :: _ => _ end] =>
              is_var l; destruct l; simpl in *
          end; try discriminate).

Ltac split_andb :=
  repeat match goal with
         | H : _ && _ = true |- _ => apply andb_true_iff in H as [? ?]
         end.


(** * Properties of the schema transforms *)

Lemma mapR_wrap_name (tags : list value) :
  mapR (fun tag => Ok (VObj [("name", tag)])) tags
  = Ok (map (fun tag => VObj [("name", tag)]) tags).
Proof.
  induction tags as [|t tags IH]; simpl; [reflexivity|].
  now rewrite IH.
Qed.

Lemma mapR_unwrap_name (tags : list value) :
  mapR (fun tag => get_prop tag "name")
       (map (fun tag => VObj [("name", tag)]) tags)
  = Ok tags.
Proof.
  induction tags as [|t tags IH]; simpl; [reflexivity|].
  now rewrite IH.
Qed.

Lemma js_or_nonempty (s : string) (dflt : value) :
  s <> "" -> js_or (VStr s) dflt = VStr s.
Proof.
  intros Hs. unfold js_or; simpl.
  destruct s; [contradiction|reflexivity].
Qed.

(** C5. Transform defaults: [transformMCPToNotion({})] yields name "Untitled",
    description "", status "Draft" and no tags, in the remote schema's shape;
    [transformNotionToMCP] of the page p1 with empty properties and
    timestamps t1, t2 yields exactly the record with empty name, description,
    status and tags. *)
Theorem transform_defaults :
  transformMCPToNotion (VObj []) =
    Ok (VObj
      [ ("Name", VObj [("title", VArr [VObj [("text", VObj [("content", VStr "Untitled")])]])]);
        ("Description",
           VObj [("rich_text", VArr [VObj [("text", VObj [("content", VStr "")])]])]);
        ("Status", VObj [("select", VObj [("name", VStr "Draft")])]);
        ("Tags", VObj [("multi_select", VArr [])]) ])
  /\ transformNotionToMCP
       (VObj [ ("id", VStr "p1"); ("properties", VObj []);
               ("createdTime", VStr "t1"); ("lastEditedTime", VStr "t2") ]) =
     Ok (VObj
       [ ("notionPageId", VStr "p1"); ("name", VStr ""); ("description", VStr "");
         ("status", VStr ""); ("tags", VArr []);
         ("createdAt", VStr "t1"); ("updatedAt", VStr "t2") ]).
Proof. split; reflexivity. Qed.

(** C4. Round trip: for a local record whose name, description and status are
    non-empty strings and whose tags are an array, transforming to the remote
    schema and transforming the stored page back reproduces the three scalars
    and the tags (here even in the same order). *)
Theorem round_trip_stability :
  forall (L : value) (name description status : string) (tags : list value)
         (id createdTime lastEditedTime : value),
    get_prop L "name" = Ok (VStr name) -> name <> "" ->
    get_prop L "description" = Ok (VStr description) -> description <> "" ->
    get_prop L "status" = Ok (VStr status) -> status <> "" ->
    get_prop L "tags" = Ok (VArr tags) ->
    exists properties L',
      transformMCPToNotion L = Ok properties
      /\ transformNotionToMCP (stored_as id properties createdTime lastEditedTime) = Ok L'
      /\ get_prop L' "name" = Ok (VStr name)
      /\ get_prop L' "description" = Ok (VStr description)
      /\ get_prop L' "status" = Ok (VStr status)
      /\ get_prop L' "tags" = Ok (VArr tags).
Proof.
  intros L name description status tags id ct lt Hn Hn0 Hd Hd0 Hs Hs0 Ht.
  unfold transformMCPToNotion.
  rewrite Hn, Hd, Hs, Ht; simpl.
  rewrite mapR_wrap_name; simpl.
  rewrite !js_or_nonempty by assumption.
  eexists; eexists; split; [reflexivity|].
  unfold transformNotionToMCP, stored_as; simpl.
  rewrite mapR_unwrap_name; simpl.
  rewrite !js_or_nonempty by assumption.
  split; [reflexivity|].
  repeat split; reflexivity.
Qed.

Lemma round_trip_stability_witness :
  exists properties L',
    transformMCPToNotion
      (VObj [ ("name", VStr "Search"); ("description", VStr "Find things");
              ("status", VStr "Active"); ("tags", VArr [VStr "ml"; VStr "nlp"]) ])
    = Ok properties
    /\ transformNotionToMCP (stored_as (VStr "p1") properties (VStr "t1") (VStr "t2")) = Ok L'
    /\ get_prop L' "name" = Ok (VStr "Search")
    /\ get_prop L' "description" = Ok (VStr "Find things")
    /\ get_prop L' "status" = Ok (VStr "Active")
    /\ get_prop L' "tags" = Ok (VArr [VStr "ml"; VStr "nlp"]).
Proof.
  apply (round_trip_stability
           (VObj [ ("name", VStr "Search"); ("description", VStr "Find things");
                   ("status", VStr "Active"); ("tags", VArr [VStr "ml"; VStr "nlp"]) ])
           "Search" "Find things" "Active" [VStr "ml"; VStr "nlp"]
           (VStr "p1") (VStr "t1") (VStr "t2"));
    first [reflexivity | discriminate].
Defined.

Lemma js_or_string_default (s : string) : js_or (VStr s) (VStr "") = VStr s.
Proof. destruct s; reflexivity. Qed.

Lemma text_chain_read (fields : list (string * value)) (outer key : string) :
  optional (object_with [(key, optional (array_of is_text_item))])
           (field_of fields outer) = true ->
  exists c,
    (let? n := get_prop (VObj fields) outer in
     let? t := opt_prop n key in
     let? h := opt_first t in
     let? x := opt_prop h "text" in
     opt_prop x "content") = Ok c
    /\ js_or c (VStr "")
       = VStr (string_at (VObj fields)
                 [Key outer; Key key; First; Key "text"; Key "content"]).
Proof.
  intros Hshape. unfold is_text_item in Hshape. unfold_reads.
  case_reads; try read_done; eexists; (split; [reflexivity|]);
    apply js_or_string_default.
Qed.

Lemma status_read (fields : list (string * value)) :
  optional (object_with
              [("select", optional (object_with [("name", optional is_string)]))])
           (field_of fields "Status") = true ->
  exists c,
    (let? s := get_prop (VObj fields) "Status" in
     let? sel := opt_prop s "select" in
     opt_prop sel "name") = Ok c
    /\ js_or c (VStr "") = VStr (string_at (VObj fields) status_path).
Proof.
  intros Hshape. unfold status_path. unfold_reads.
  case_reads; try read_done; eexists; (split; [reflexivity|]);
    apply js_or_string_default.
Qed.

Lemma option_names_read (opts : list value) :
  forallb is_select_option opts = true ->
  mapR (fun tag => get_prop tag "name") opts = Ok (option_names opts)
  /\ forallb (optional is_string) (option_names opts) = true.
Proof.
  induction opts as [|o opts IH]; simpl; [split; reflexivity|].
  intros H. apply andb_true_iff in H as [Ho Hrest].
  destruct (IH Hrest) as [IHmap IHstr].
  split_value o. rewrite IHmap; simpl.
  rewrite andb_true_r in Ho. rewrite Ho, IHstr. split; reflexivity.
Qed.

Lemma tags_read (fields : list (string * value)) :
  optional (object_with [("multi_select", optional (array_of is_select_option))])
           (field_of fields "Tags") = true ->
  exists t,
    (let? t := get_prop (VObj fields) "Tags" in
     let? ms := opt_prop t "multi_select" in
     if is_nullish ms then Ok VUndefined
     else
       let? names := call_map ms "props.Tags?.multi_select?.map"
                       (fun tag => get_prop tag "name") in
       Ok (VArr names)) = Ok t
    /\ js_or t (VArr []) = VArr (tags_at (VObj fields) tags_path)
    /\ forallb (optional is_string) (tags_at (VObj fields) tags_path) = true.
Proof.
  intros Hshape. unfold tags_at, tags_path.
  unfold optional, object_with, array_of, field_of in Hshape.
  unfold opt_prop; simpl in *.
  destruct (own_prop "Tags" fields) as [t|]; simpl in *; [|read_done].
  split_value t; try read_done.
  destruct (own_prop "multi_select" fields0) as [ms|]; simpl in *; [|read_done].
  split_value ms; try read_done.
  rewrite andb_true_r in Hshape.
  destruct (option_names_read elems Hshape) as [Hmap Hstr].
  rewrite Hmap; simpl.
  eexists; split; [reflexivity|]. split; [reflexivity|exact Hstr].
Qed.

(** Outside the declared shape the reads are not all defensive: a [null]
    among the multi-select options makes [tag.name] throw. *)
Example remote_null_option_throws :
  transformNotionToMCP
    (VObj [ ("id", VStr "p1");
            ("properties", VObj [("Tags", VObj [("multi_select", VArr [VNull])])]);
            ("createdTime", VStr "t1"); ("lastEditedTime", VStr "t2") ])
  = Throw (cannot_read "null" "name").
Proof. reflexivity. Qed.

(** * Properties of the stateful operations *)

Section ConnectorProperties.

Variable R : Type.
Variable remote : call -> R -> result value * R.
Variable cfg : Config.

Lemma world_eta (w : world R) :
  {| notion := notion w; net := net w; trace := trace w; console := console w |} = w.
Proof. destruct w; reflexivity. Qed.

Lemma ensure_client_ready (w : world R) (c : Client) :
  the_client cfg w = Some c ->
  ensure_client cfg w = (Ok tt, with_client w c).
Proof.
  unfold the_client, ensure_client, with_client, initializeClient, bind, ret.
  destruct (notion w) as [c'|] eqn:Hn.
  - intros [= ->]. rewrite <- Hn, world_eta. reflexivity.
  - simpl. destruct (apiKey cfg =? ""); simpl; [discriminate|].
    intros [= <-]. reflexivity.
Qed.

Lemma ensure_client_missing (w : world R) :
  the_client cfg w = None ->
  ensure_client cfg w = (Throw missing_credential, w).
Proof.
  unfold the_client, ensure_client, initializeClient, bind, ret.
  destruct (notion w); [discriminate|].
  simpl. destruct (apiKey cfg =? ""); simpl; [reflexivity|discriminate].
Qed.

Lemma truthy_default_param (v : value) :
  truthy (default_param v VNull) = truthy v.
Proof. destruct v; reflexivity. Qed.

Lemma default_param_truthy (v : value) :
  truthy v = true -> default_param v VNull = v.
Proof. destruct v; simpl; congruence. Qed.

Lemma pushNotionRecord_run (w : world R) (c : Client) (db data pageId : value) :
  the_client cfg w = Some c ->
  pushNotionRecord remote cfg db data pageId w =
  match remote (push_request cfg c db data pageId) (net w) with
  | (Ok response, net') =>
      (Ok response, after_call w c (push_request cfg c db data pageId) net' [])
  | (Throw e, net') =>
      (Throw e, after_call w c (push_request cfg c db data pageId) net'
                  [ConsoleError "Error pushing Notion record:" e])
  end.
Proof.
  intros Hc. unfold pushNotionRecord, bind.
  rewrite (ensure_client_ready w c Hc).
  unfold try_catch, push_request, database_or_default, js_or.
  rewrite truthy_default_param.
  destruct (truthy pageId) eqn:Hp.
  - rewrite (default_param_truthy _ Hp).
    unfold bind, client_call, ret, throw, console_write, after_call, with_client; simpl.
    destruct (remote _ (net w)) as [[response|e] net']; simpl;
      [rewrite app_nil_r|]; reflexivity.
  - unfold bind, client_call, ret, throw, console_write, after_call, with_client; simpl.
    destruct (remote _ (net w)) as [[response|e] net']; simpl;
      [rewrite app_nil_r|]; reflexivity.
Qed.

Lemma pushNotionRecord_missing (w : world R) (db data pageId : value) :
  the_client cfg w = None ->
  pushNotionRecord remote cfg db data pageId w = (Throw missing_credential, w).
Proof.
  intros Hc. unfold pushNotionRecord, bind.
  now rewrite (ensure_client_missing w Hc).
Qed.

Lemma fetchNotionRecords_run (w : world R) (c : Client) (db filter : value) :
  the_client cfg w = Some c ->
  fetchNotionRecords remote cfg db filter w =
  match remote (fetch_request cfg c db filter) (net w) with
  | (Ok response, net') =>
      match records_of_response response with
      | Ok records =>
          (Ok records, after_call w c (fetch_request cfg c db filter) net' [])
      | Throw e =>
          (Throw e, after_call w c (fetch_request cfg c db filter) net'
                      [ConsoleError "Error fetching Notion records:" e])
      end
  | (Throw e, net') =>
      (Throw e, after_call w c (fetch_request cfg c db filter) net'
                  [ConsoleError "Error fetching Notion records:" e])
  end.
Proof.
  intros Hc. unfold fetchNotionRecords, bind.
  rewrite (ensure_client_ready w c Hc).
  unfold try_catch, fetch_request, database_or_default, js_or, records_of_response.
  rewrite truthy_default_param.
  replace (if truthy filter then [("filter", default_param filter VNull)] else [])
    with (if truthy filter then [("filter", filter)] else [])
    by (destruct (truthy filter) eqn:Hf;
        [rewrite (default_param_truthy _ Hf)|]; reflexivity).
  unfold bind, client_call, lift, ret, throw, console_write, after_call, with_client;
    simpl.
  destruct (remote _ (net w)) as [[response|e] net']; simpl; [|reflexivity].
  destruct (get_prop response "results") as [results|e]; simpl; [|reflexivity].
  destruct (call_map results "response.results.map" page_to_record) as [records|e];
    simpl; [rewrite app_nil_r|]; reflexivity.
Qed.

Lemma fetchNotionRecords_missing (w : world R) (db filter : value) :
  the_client cfg w = None ->
  fetchNotionRecords remote cfg db filter w = (Throw missing_credential, w).
Proof.
  intros Hc. unfold fetchNotionRecords, bind.
  now rewrite (ensure_client_missing w Hc).
Qed.

(** [fetchNotionRecords] sends at most one request, and it is a query. *)
Lemma fetchNotionRecords_trace (w : world R) (db filter : value) :
  exists calls,
    trace (snd (fetchNotionRecords remote cfg db filter w)) = (trace w ++ calls)%list
    /\ push_attempts calls = 0.
Proof.
  destruct (the_client cfg w) as [c|] eqn:Hc.
  - rewrite (fetchNotionRecords_run w c db filter Hc).
    exists [fetch_request cfg c db filter].
    destruct (remote _ (net w)) as [[response|e] net']; simpl;
      [destruct (records_of_response response)|]; split; reflexivity.
  - rewrite (fetchNotionRecords_missing w db filter Hc).
    exists []. simpl. rewrite app_nil_r. split; reflexivity.
Qed.

Lemma push_attempts_app (t1 t2 : list call) :
  push_attempts (t1 ++ t2)%list = push_attempts t1 + push_attempts t2.
Proof. unfold push_attempts. now rewrite filter_app, length_app. Qed.

Lemma destructure_prop_get (o : value) (k k' : string) (v : value) :
  get_prop o k = Ok v -> destructure_prop o k' = get_prop o k'.
Proof. destruct o; simpl; intros; congruence. Qed.

Lemma get_prop_defined (o : value) (k k' : string) (v : value) :
  get_prop o k = Ok v -> exists v', get_prop o k' = Ok v'.
Proof. destruct o; simpl; intros; try discriminate; eexists; reflexivity. Qed.

Lemma strict_eq_str_neq (v : value) (s : string) :
  v <> VStr s -> strict_eq_str v s = false.
Proof.
  destruct v; simpl; try reflexivity.
  intros Hneq. apply String.eqb_neq. congruence.
Qed.

(** C7. Push branch selection: with a client available, [pushNotionRecord]
    sends exactly one request -- an update of [pageId] with the given
    properties when [pageId] is present (truthy), a create under the given
    database (the configured one when none is given) otherwise -- and hands
    the remote's answer back unchanged. *)
Theorem push_branch_selection :
  forall (w : world R) (c : Client) (db data pageId : value),
    the_client cfg w = Some c ->
    exists request w',
      pushNotionRecord remote cfg db data pageId w
        = (fst (remote request (net w)), w')
      /\ trace w' = (trace w ++ [request])%list
      /\ net w' = snd (remote request (net w))
      /\ (truthy pageId = true ->
            request = PagesUpdate c (VObj [("page_id", pageId); ("properties", data)]))
      /\ (truthy pageId = false ->
            request =
              PagesCreate c
                (VObj [ ("parent",
                         VObj [("database_id",
                                if truthy db then db else VStr (databaseId cfg))]);
                        ("properties", data) ])).
Proof.
  intros w c db data pageId Hc.
  rewrite (pushNotionRecord_run w c db data pageId Hc).
  exists (push_request cfg c db data pageId).
  destruct (remote (push_request cfg c db data pageId) (net w)) as [[response|e] net'];
    simpl; eexists; (split; [reflexivity|]); simpl;
    (split; [reflexivity|]); (split; [reflexivity|]);
    unfold push_request; split; intros ->; reflexivity.
Qed.

(** C8. Fallback database id: with a client available, [fetchNotionRecords]
    sends exactly one query; its [database_id] is the configured default when
    the argument is omitted or empty (falsy) and the argument itself
    otherwise; a filter that is present (truthy) is passed through as it is,
    and the query has no [filter] key otherwise. *)
Theorem fetch_database_fallback :
  forall (w : world R) (c : Client) (db filter : value),
    the_client cfg w = Some c ->
    exists database_id filter_part,
      trace (snd (fetchNotionRecords remote cfg db filter w))
        = (trace w
           ++ [DatabasesQuery c (VObj (("database_id", database_id) :: filter_part))])%list
      /\ (db = VUndefined \/ db = VStr "" -> database_id = VStr (databaseId cfg))
      /\ (truthy db = false -> database_id = VStr (databaseId cfg))
      /\ (truthy db = true -> database_id = db)
      /\ (truthy filter = true -> filter_part = [("filter", filter)])
      /\ (truthy filter = false -> filter_part = []).
Proof.
  intros w c db filter Hc.
  rewrite (fetchNotionRecords_run w c db filter Hc).
  exists (if truthy db then db else VStr (databaseId cfg)),
         (if truthy filter then [("filter", filter)] else []).
  split.
  - unfold fetch_request.
    destruct (remote _ (net w)) as [[response|e] net']; simpl;
      [destruct (records_of_response response)|]; reflexivity.
  - split; [intros [-> | ->]; reflexivity|].
    repeat split; intros ->; reflexivity.
Qed.

(** C9. A direction other than 'pull', 'push' and 'bidirectional' (and not
    left out, which means 'pull') is a no-op: [syncNotionData] sends nothing,
    logs nothing and returns the empty result. *)
Theorem unrecognized_direction_is_noop :
  forall (w : world R) (options direction : value),
    get_prop options "direction" = Ok direction ->
    direction <> VUndefined ->
    direction <> VStr "pull" ->
    direction <> VStr "push" ->
    direction <> VStr "bidirectional" ->
    syncNotionData remote cfg options w
      = (Ok {| pulled := []; pushed := []; errors := [] |}, w).
Proof.
  intros w options direction Hdir Hundef Hpull Hpush Hbidi.
  destruct (get_prop_defined options "direction" "databaseId" _ Hdir) as [db Hdb].
  destruct (get_prop_defined options "direction" "mcpRecords" _ Hdir) as [recs Hrecs].
  unfold syncNotionData.
  rewrite !(destructure_prop_get options "direction" _ direction Hdir).
  rewrite Hdb, Hdir, Hrecs.
  unfold bind at 1, lift at 1. unfold bind at 1, lift at 1. unfold bind at 1, lift at 1.
  replace (default_param direction (VStr "pull")) with direction
    by (destruct direction; try reflexivity; contradiction).
  rewrite !strict_eq_str_neq by assumption.
  reflexivity.
Qed.

Lemma pull_failure_is_fatal_run (w w1 : world R) (options db direction : value)
    (e : JsError) :
  get_prop options "databaseId" = Ok db ->
  get_prop options "direction" = Ok direction ->
  direction = VUndefined \/ direction = VStr "pull"
    \/ direction = VStr "bidirectional" ->
  fetchNotionRecords remote cfg db VUndefined w = (Throw e, w1) ->
  syncNotionData remote cfg options w
    = (Throw e, write_console w1 [ConsoleError "Sync error:" e]).
Proof.
  intros Hdb Hdir Hcases Hfetch.
  destruct (get_prop_defined options "direction" "mcpRecords" _ Hdir) as [recs Hrecs].
  unfold syncNotionData.
  rewrite !(destructure_prop_get options "direction" _ direction Hdir).
  rewrite Hdb, Hdir, Hrecs.
  unfold bind at 1, lift at 1. unfold bind at 1, lift at 1.
  unfold bind at 1, lift at 1.
  assert (Hpulls : strict_eq_str (default_param direction (VStr "pull")) "pull"
                   || strict_eq_str (default_param direction (VStr "pull"))
                        "bidirectional" = true)
    by (destruct Hcases as [-> | [-> | ->]]; reflexivity).
  rewrite Hpulls.
  unfold try_catch, bind at 1, bind at 1. rewrite Hfetch.
  reflexivity.
Qed.

(** C2. Pull-phase fatality: when the direction is 'pull' (also by default)
    or 'bidirectional' and [fetchNotionRecords] throws, [syncNotionData]
    throws that same error; beyond what the fetch did it only logs the error:
    no record is pushed. *)
Theorem pull_failure_is_fatal :
  forall (w w1 : world R) (options db direction : value) (e : JsError),
    get_prop options "databaseId" = Ok db ->
    get_prop options "direction" = Ok direction ->
    direction = VUndefined \/ direction = VStr "pull"
      \/ direction = VStr "bidirectional" ->
    fetchNotionRecords remote cfg db VUndefined w = (Throw e, w1) ->
    syncNotionData remote cfg options w
      = (Throw e, write_console w1 [ConsoleError "Sync error:" e])
    /\ push_attempts (trace (write_console w1 [ConsoleError "Sync error:" e]))
       = push_attempts (trace w).
Proof.
  intros w w1 options db direction e Hdb Hdir Hcases Hfetch.
  split.
  - now apply (pull_failure_is_fatal_run w w1 options db direction e).
  - simpl.
    destruct (fetchNotionRecords_trace w db VUndefined) as (calls & Htrace & Hnone).
    rewrite Hfetch in Htrace; simpl in Htrace.
    rewrite Htrace, push_attempts_app, Hnone. lia.
Qed.

(** One turn of the push loop records the outcome of its attempt and never
    throws. *)
Lemma push_loop_step (db record : value) (rest : list value) (results : SyncResult)
    (w : world R) :
  push_loop remote cfg db (record :: rest) results w =
  match push_attempt remote cfg db record w with
  | (Ok response, w1) =>
      push_loop remote cfg db rest
        {| pulled := pulled results;
           pushed := pushed results ++ [response];
           errors := errors results |} w1
  | (Throw e, w1) =>
      push_loop remote cfg db rest
        {| pulled := pulled results;
           pushed := pushed results;
           errors := errors results
                     ++ [VObj [("record", record); ("error", VStr (err_message e))]] |} w1
  end.
Proof.
  simpl. unfold push_attempt, bind, try_catch, lift, ret.
  destruct (get_prop record "properties") as [properties|e]; [|reflexivity].
  destruct (get_prop record "notionPageId") as [notionPageId|e]; [|reflexivity].
  destruct (pushNotionRecord remote cfg db properties (js_or notionPageId VNull) w)
    as [[response|e] w1]; reflexivity.
Qed.

Lemma push_loop_outcomes (db : value) (records : list value) :
  forall (results : SyncResult) (w : world R),
    push_loop remote cfg db records results w =
    (Ok {| pulled := pulled results;
           pushed := pushed results ++ responses_of (fst (push_outcomes remote cfg db records w));
           errors := errors results ++ failures_of (fst (push_outcomes remote cfg db records w)) |},
     snd (push_outcomes remote cfg db records w)).
Proof.
  induction records as [|record rest IH]; intros results w.
  - simpl. rewrite !app_nil_r. destruct results; reflexivity.
  - rewrite push_loop_step. simpl push_outcomes.
    destruct (push_attempt remote cfg db record w) as [[response|e] w1];
      rewrite IH; destruct (push_outcomes remote cfg db rest w1) as [outcomes w2];
      simpl; rewrite <- !app_assoc; reflexivity.
Qed.

Lemma outcomes_length (db : value) (records : list value) :
  forall w : world R,
    length (fst (push_outcomes remote cfg db records w)) = length records
    /\ map fst (fst (push_outcomes remote cfg db records w)) = records.
Proof.
  induction records as [|record rest IH]; intros w; [split; reflexivity|].
  simpl. destruct (push_attempt remote cfg db record w) as [outcome w1].
  specialize (IH w1).
  destruct (push_outcomes remote cfg db rest w1) as [outcomes w2]; simpl in *.
  destruct IH as [-> ->]. split; reflexivity.
Qed.

Lemma responses_failures_length (outcomes : list (value * result value)) :
  length (responses_of outcomes) + length (failures_of outcomes) = length outcomes.
Proof.
  induction outcomes as [|[record [response|e]] outcomes IH]; simpl; lia.
Qed.

Lemma syncNotionData_push_run (w : world R) (options db : value)
    (records : list value) :
  get_prop options "databaseId" = Ok db ->
  get_prop options "direction" = Ok (VStr "push") ->
  get_prop options "mcpRecords" = Ok (VArr records) ->
  syncNotionData remote cfg options w
    = (Ok {| pulled := [];
             pushed := responses_of (fst (push_outcomes remote cfg db records w));
             errors := failures_of (fst (push_outcomes remote cfg db records w)) |},
       write_console (snd (push_outcomes remote cfg db records w))
         [LogPushed (length (responses_of (fst (push_outcomes remote cfg db records w))))]).
Proof.
  intros Hdb Hdir Hrecs. unfold syncNotionData.
  rewrite !(destructure_prop_get options "direction" _ _ Hdir).
  rewrite Hdb, Hdir, Hrecs.
  unfold bind at 1, lift at 1. unfold bind at 1, lift at 1.
  unfold bind at 1, lift at 1.
  simpl default_param. simpl strict_eq_str. simpl orb. simpl iterate.
  unfold try_catch, bind, lift, ret.
  rewrite push_loop_outcomes. reflexivity.
Qed.

(** C1. Sync isolation: with direction 'push', [syncNotionData] attempts
    every record of [mcpRecords] in order, whatever the outcome of the earlier
    attempts, and returns normally: [pushed] holds the responses of the
    successful attempts and [errors] the [{record, error message}] pairs of
    the failed ones, each in the order of the input records; every record
    ends up in exactly one of the two. *)
Theorem sync_push_isolates_failures :
  forall (w : world R) (options db : value) (records : list value),
    get_prop options "databaseId" = Ok db ->
    get_prop options "direction" = Ok (VStr "push") ->
    get_prop options "mcpRecords" = Ok (VArr records) ->
    let outcomes := fst (push_outcomes remote cfg db records w) in
    let w' := snd (push_outcomes remote cfg db records w) in
    syncNotionData remote cfg options w
      = (Ok {| pulled := [];
               pushed := responses_of outcomes;
               errors := failures_of outcomes |},
         write_console w' [LogPushed (length (responses_of outcomes))])
    /\ map fst outcomes = records
    /\ length (responses_of outcomes) + length (failures_of outcomes) = length records.
Proof.
  intros w options db records Hdb Hdir Hrecs outcomes w'.
  split; [|split].
  - now apply syncNotionData_push_run.
  - apply outcomes_length.
  - rewrite responses_failures_length. apply outcomes_length.
Qed.

(** ** The state invariant *)

Lemma client_consistent_notion (w w' : world R) :
  notion w' = notion w -> client_consistent cfg w -> client_consistent cfg w'.
Proof. unfold client_consistent. intros ->. auto. Qed.

Lemma initial_consistent (n : R) : client_consistent cfg (initial_world n).
Proof. intros c Hc. discriminate Hc. Qed.

Lemma the_client_consistent (w : world R) (c : Client) :
  client_consistent cfg w -> the_client cfg w = Some c ->
  c = {| auth := apiKey cfg |} /\ apiKey cfg <> "".
Proof.
  unfold the_client. intros Hw.
  destruct (notion w) as [c'|] eqn:Hn.
  - intros [= <-]. now apply Hw.
  - destruct (apiKey cfg =? "") eqn:Hkey; [discriminate|].
    intros [= <-]. split; [reflexivity|]. now apply String.eqb_neq.
Qed.

Lemma no_credential_no_client (w : world R) :
  client_consistent cfg w -> apiKey cfg = "" -> the_client cfg w = None.
Proof.
  intros Hw Hkey. destruct (the_client cfg w) as [c|] eqn:Hc; [|reflexivity].
  destruct (the_client_consistent w c Hw Hc) as [_ Hne]. contradiction.
Qed.

Lemma after_call_consistent (w : world R) (c : Client) (request : call) (net' : R)
    (logged : list log_entry) :
  client_consistent cfg w -> the_client cfg w = Some c ->
  client_consistent cfg (after_call w c request net' logged).
Proof.
  intros Hw Hc c' Hc'. simpl in Hc'. injection Hc' as <-.
  now apply (the_client_consistent w).
Qed.

Lemma pushNotionRecord_consistent (w : world R) (db data pageId : value) :
  client_consistent cfg w ->
  client_consistent cfg (snd (pushNotionRecord remote cfg db data pageId w)).
Proof.
  intros Hw. destruct (the_client cfg w) as [c|] eqn:Hc.
  - rewrite (pushNotionRecord_run w c db data pageId Hc).
    destruct (remote _ (net w)) as [[response|e] net']; simpl;
      now apply after_call_consistent.
  - now rewrite (pushNotionRecord_missing w db data pageId Hc).
Qed.

Lemma fetchNotionRecords_consistent (w : world R) (db filter : value) :
  client_consistent cfg w ->
  client_consistent cfg (snd (fetchNotionRecords remote cfg db filter w)).
Proof.
  intros Hw. destruct (the_client cfg w) as [c|] eqn:Hc.
  - rewrite (fetchNotionRecords_run w c db filter Hc).
    destruct (remote _ (net w)) as [[response|e] net']; simpl;
      [destruct (records_of_response response)|]; simpl;
      now apply after_call_consistent.
  - now rewrite (fetchNotionRecords_missing w db filter Hc).
Qed.

Lemma push_attempt_consistent (w : world R) (db record : value) :
  client_consistent cfg w ->
  client_consistent cfg (snd (push_attempt remote cfg db record w)).
Proof.
  intros Hw. unfold push_attempt, bind, lift.
  destruct (get_prop record "properties") as [properties|e]; [|exact Hw].
  destruct (get_prop record "notionPageId") as [notionPageId|e]; [|exact Hw].
  now apply pushNotionRecord_consistent.
Qed.

Lemma push_outcomes_consistent (db : value) (records : list value) :
  forall w : world R,
    client_consistent cfg w ->
    client_consistent cfg (snd (push_outcomes remote cfg db records w)).
Proof.
  induction records as [|record rest IH]; intros w Hw; [exact Hw|].
  simpl. pose proof (push_attempt_consistent w db record Hw) as H1.
  destruct (push_attempt remote cfg db record w) as [outcome w1].
  specialize (IH w1 H1).
  destruct (push_outcomes remote cfg db rest w1) as [outcomes w2]. exact IH.
Qed.

Lemma initializeClient_consistent (w : world R) :
  client_consistent cfg w -> client_consistent cfg (snd (initializeClient cfg w)).
Proof.
  intros Hw. unfold initializeClient. simpl.
  destruct (apiKey cfg =? "") eqn:Hkey; simpl; [exact Hw|].
  intros c [= <-]. split; [reflexivity|]. now apply String.eqb_neq.
Qed.

(** Every exported operation keeps the invariant. *)
Lemma syncNotionData_consistent (w : world R) (options : value) :
  client_consistent cfg w ->
  client_consistent cfg (snd (syncNotionData remote cfg options w)).
Proof.
  intros Hw. unfold syncNotionData.
  unfold bind at 1, lift at 1.
  destruct (destructure_prop options "databaseId") as [db|e]; [|exact Hw].
  unfold bind at 1, lift at 1.
  destruct (destructure_prop options "direction") as [direction|e]; [|exact Hw].
  unfold bind at 1, lift at 1.
  destruct (destructure_prop options "mcpRecords") as [mcpRecords|e]; [|exact Hw].
  set (d := default_param direction (VStr "pull")).
  set (recs := default_param mcpRecords (VArr [])).
  pose proof (fetchNotionRecords_consistent w db VUndefined Hw) as Hfetch.
  unfold try_catch, bind, lift, ret, throw, console_write.
  destruct (strict_eq_str d "pull" || strict_eq_str d "bidirectional").
  - destruct (fetchNotionRecords remote cfg db VUndefined w) as [[fetched|e] w1];
      simpl in Hfetch; simpl; [|exact Hfetch].
    destruct (strict_eq_str d "push" || strict_eq_str d "bidirectional");
      simpl; [|exact Hfetch].
    destruct (iterate recs "mcpRecords") as [records|e]; simpl; [|exact Hfetch].
    rewrite push_loop_outcomes. simpl.
    apply (client_consistent_notion
             (snd (push_outcomes remote cfg db records
                     {| notion := notion w1; net := net w1; trace := trace w1;
                        console := console w1 ++ [LogPulled (length fetched)] |})));
      [reflexivity|].
    apply push_outcomes_consistent. exact Hfetch.
  - destruct (strict_eq_str d "push" || strict_eq_str d "bidirectional");
      simpl; [|exact Hw].
    destruct (iterate recs "mcpRecords") as [records|e]; simpl; [|exact Hw].
    rewrite push_loop_outcomes. simpl.
    apply (client_consistent_notion
             (snd (push_outcomes remote cfg db records w))); [reflexivity|].
    now apply push_outcomes_consistent.
Qed.

(** ** Pushing without a credential, and pushing records without a page id *)

Lemma get_prop_field (v : value) (k : string) :
  is_nullish v = false -> get_prop v k = Ok (field_of_value v k).
Proof. destruct v; simpl; intros; try discriminate; reflexivity. Qed.

Lemma push_outcomes_missing (db : value) (records : list value) (w : world R) :
  the_client cfg w = None ->
  Forall (fun record => is_nullish record = false) records ->
  push_outcomes remote cfg db records w
    = (map (fun record => (record, Throw missing_credential)) records, w).
Proof.
  intros Hc Hrecords.
  induction Hrecords as [|record rest Hrecord _ IH]; [reflexivity|].
  simpl. unfold push_attempt, bind, lift.
  rewrite !(get_prop_field record _ Hrecord).
  rewrite (pushNotionRecord_missing w _ _ _ Hc), IH. reflexivity.
Qed.

Lemma failures_of_missing (records : list value) :
  failures_of (map (fun record => (record, Throw missing_credential)) records)
    = map credential_error_entry records
  /\ responses_of (map (fun record => (record, Throw (A:=value) missing_credential))
                       records) = [].
Proof.
  induction records as [|record rest [IHf IHr]]; [split; reflexivity|].
  simpl. rewrite IHf, IHr. split; reflexivity.
Qed.

Lemma pushNotionRecord_effect (w : world R) (c : Client) (db data pageId : value) :
  the_client cfg w = Some c ->
  trace (snd (pushNotionRecord remote cfg db data pageId w))
    = (trace w ++ [push_request cfg c db data pageId])%list
  /\ the_client cfg (snd (pushNotionRecord remote cfg db data pageId w)) = Some c.
Proof.
  intros Hc. rewrite (pushNotionRecord_run w c db data pageId Hc).
  destruct (remote _ (net w)) as [[response|e] net']; split; reflexivity.
Qed.


Lemma syncNotionData_bidirectional_run (w w1 : world R) (options db : value)
    (records fetched : list value) :
  get_prop options "databaseId" = Ok db ->
  get_prop options "direction" = Ok (VStr "bidirectional") ->
  get_prop options "mcpRecords" = Ok (VArr records) ->
  fetchNotionRecords remote cfg db VUndefined w = (Ok fetched, w1) ->
  let w2 := write_console w1 [LogPulled (length fetched)] in
  syncNotionData remote cfg options w
    = (Ok {| pulled := fetched;
             pushed := responses_of (fst (push_outcomes remote cfg db records w2));
             errors := failures_of (fst (push_outcomes remote cfg db records w2)) |},
       write_console (snd (push_outcomes remote cfg db records w2))
         [LogPushed (length (responses_of (fst (push_outcomes remote cfg db records w2))))]).
Proof.
  intros Hdb Hdir Hrecs Hfetch w2. unfold syncNotionData.
  rewrite !(destructure_prop_get options "direction" _ _ Hdir).
  rewrite Hdb, Hdir, Hrecs.
  unfold bind at 1, lift at 1. unfold bind at 1, lift at 1.
  unfold bind at 1, lift at 1.
  simpl default_param. simpl strict_eq_str. simpl orb. simpl iterate.
  unfold try_catch, bind at 1, bind at 1. rewrite Hfetch.
  unfold bind, lift, ret, console_write.
  rewrite push_loop_outcomes. reflexivity.
Qed.


(** Without a credential, and in a state the module can be in, nothing is
    sent: the single-record operations throw, a sync that pulls throws, and a
    sync that only pushes returns with every record among its errors. *)
Lemma credential_gate (w : world R) :
  apiKey cfg = "" ->
  client_consistent cfg w ->
  (forall db filter,
     fetchNotionRecords remote cfg db filter w = (Throw missing_credential, w))
  /\ (forall db data pageId,
        pushNotionRecord remote cfg db data pageId w = (Throw missing_credential, w))
  /\ (forall options db direction,
        get_prop options "databaseId" = Ok db ->
        get_prop options "direction" = Ok direction ->
        direction = VUndefined \/ direction = VStr "pull"
          \/ direction = VStr "bidirectional" ->
        syncNotionData remote cfg options w
          = (Throw missing_credential,
             write_console w [ConsoleError "Sync error:" missing_credential]))
  /\ (forall options db records,
        get_prop options "databaseId" = Ok db ->
        get_prop options "direction" = Ok (VStr "push") ->
        get_prop options "mcpRecords" = Ok (VArr records) ->
        Forall (fun record => is_nullish record = false) records ->
        syncNotionData remote cfg options w
          = (Ok {| pulled := []; pushed := [];
                   errors := map credential_error_entry records |},
             write_console w [LogPushed 0])).
Proof.
  intros Hkey Hw.
  pose proof (no_credential_no_client w Hw Hkey) as Hc.
  split; [|split; [|split]].
  - intros db filter. now apply fetchNotionRecords_missing.
  - intros db data pageId. now apply pushNotionRecord_missing.
  - intros options db direction Hdb Hdir Hcases.
    apply (pull_failure_is_fatal_run w w options db direction missing_credential
             Hdb Hdir Hcases).
    now apply fetchNotionRecords_missing.
  - intros options db records Hdb Hdir Hrecs Hrecords.
    rewrite (syncNotionData_push_run w options db records Hdb Hdir Hrecs).
    rewrite (push_outcomes_missing db records w Hc Hrecords). simpl.
    destruct (failures_of_missing records) as [-> ->]. reflexivity.
Qed.

End ConnectorProperties.

(** ** The credential gate *)

(** C3 (amended). With no credential configured (the variable absent or
    empty), in any state the module can be in, no operation sends anything:
    [fetchNotionRecords] and [pushNotionRecord] throw the missing-credential
    error, and so does a [syncNotionData] that pulls ('pull', the default, or
    'bidirectional'); a [syncNotionData] with direction 'push' does not throw:
    it returns with nothing pushed and one [errors] entry per record, carrying
    the missing-credential message. *)
Theorem missing_credential_gate :
  forall (R : Type) (remote : call -> R -> result value * R) (env : Env)
         (w : world R),
    NOTION_API_KEY env = None \/ NOTION_API_KEY env = Some "" ->
    client_consistent (notionConfig env) w ->
    (forall db filter,
       fetchNotionRecords remote (notionConfig env) db filter w
         = (Throw missing_credential, w))
    /\ (forall db data pageId,
          pushNotionRecord remote (notionConfig env) db data pageId w
            = (Throw missing_credential, w))
    /\ (forall options db direction,
          get_prop options "databaseId" = Ok db ->
          get_prop options "direction" = Ok direction ->
          direction = VUndefined \/ direction = VStr "pull"
            \/ direction = VStr "bidirectional" ->
          syncNotionData remote (notionConfig env) options w
            = (Throw missing_credential,
               write_console w [ConsoleError "Sync error:" missing_credential]))
    /\ (forall options db records,
          get_prop options "databaseId" = Ok db ->
          get_prop options "direction" = Ok (VStr "push") ->
          get_prop options "mcpRecords" = Ok (VArr records) ->
          Forall (fun record => is_nullish record = false) records ->
          syncNotionData remote (notionConfig env) options w
            = (Ok {| pulled := []; pushed := [];
                     errors := map credential_error_entry records |},
               write_console w [LogPushed 0])).
Proof.
  intros R remote env w Henv Hw.
  apply credential_gate; [|exact Hw].
  unfold notionConfig; simpl. destruct Henv as [-> | ->]; reflexivity.
Qed.

(** ** Concrete runs *)

(** C3, as stated, fails: without a credential a push-only sync over one
    record returns normally instead of throwing. *)
Lemma push_sync_without_credential_returns :
  syncNotionData demo_remote (notionConfig no_credential_env)
    (sync_options "push" [record_C]) (initial_world 0)
  = (Ok {| pulled := []; pushed := [];
           errors := [VObj [("record", record_C);
                            ("error",
                             VStr "NOTION_API_KEY environment variable is required")]] |},
     {| notion := None; net := 0; trace := []; console := [LogPushed 0] |})
  /\ ~ (exists e w',
          syncNotionData demo_remote (notionConfig no_credential_env)
            (sync_options "push" [record_C]) (initial_world 0) = (Throw e, w')).
Proof.
  split; [reflexivity|].
  intros (e & w' & H). discriminate H.
Qed.

Lemma missing_credential_gate_witness :
  fetchNotionRecords demo_remote (notionConfig no_credential_env)
    (VStr "db1") VUndefined (initial_world 0)
  = (Throw missing_credential, initial_world 0)
  /\ syncNotionData demo_remote (notionConfig no_credential_env)
       (sync_options "push" [record_A; record_C]) (initial_world 0)
     = (Ok {| pulled := []; pushed := [];
              errors := map credential_error_entry [record_A; record_C] |},
        write_console (initial_world 0) [LogPushed 0]).
Proof.
  destruct (missing_credential_gate nat demo_remote no_credential_env (initial_world 0))
    as (Hfetch & _ & _ & Hpush).
  - left. reflexivity.
  - intros c Hc. discriminate Hc.
  - split.
    + apply Hfetch.
    + apply (Hpush _ (VStr "db1")); try reflexivity.
      repeat constructor.
Defined.

Lemma sync_push_isolates_failures_witness :
  syncNotionData demo_remote demo_config
    (sync_options "push" [record_A; record_B; record_C]) (initial_world 0)
  = (Ok {| pulled := [];
           pushed := [ VObj [("object", VStr "page"); ("id", VStr "A")];
                       VObj [("object", VStr "page"); ("id", VStr "new")] ];
           errors := [ VObj [("record", record_B);
                             ("error", VStr "validation failed")] ] |},
     {| notion := Some demo_client; net := 3;
        trace := [ PagesUpdate demo_client
                     (VObj [("page_id", VStr "A");
                            ("properties", field_of_value record_A "properties")]);
                   PagesUpdate demo_client
                     (VObj [("page_id", VStr "B"); ("properties", VObj [])]);
                   PagesCreate demo_client
                     (VObj [("parent", VObj [("database_id", VStr "db1")]);
                            ("properties", VObj [])]) ];
        console := [ ConsoleError "Error pushing Notion record:"
                       (mkError "APIResponseError" "validation failed");
                     LogPushed 2 ] |}).
Proof.
  exact (proj1 (sync_push_isolates_failures nat demo_remote demo_config
                  (initial_world 0)
                  (sync_options "push" [record_A; record_B; record_C]) (VStr "db1")
                  [record_A; record_B; record_C] eq_refl eq_refl eq_refl)).
Defined.

Lemma pull_failure_is_fatal_witness :
  syncNotionData down_remote demo_config
    (sync_options "bidirectional" [record_A]) (initial_world 0)
  = (Throw (mkError "RequestTimeoutError" "Request to Notion API has timed out"),
     {| notion := Some demo_client; net := 1;
        trace := [DatabasesQuery demo_client (VObj [("database_id", VStr "db1")])];
        console :=
          [ ConsoleError "Error fetching Notion records:"
              (mkError "RequestTimeoutError" "Request to Notion API has timed out");
            ConsoleError "Sync error:"
              (mkError "RequestTimeoutError" "Request to Notion API has timed out") ] |}).
Proof.
  refine (proj1 (pull_failure_is_fatal nat down_remote demo_config
                   (initial_world 0) _
                   (sync_options "bidirectional" [record_A]) (VStr "db1")
                   (VStr "bidirectional") _ eq_refl eq_refl _ eq_refl)).
  right; right; reflexivity.
Defined.

Lemma push_branch_selection_witness :
  exists request w',
    pushNotionRecord demo_remote demo_config VUndefined (VObj []) (VStr "page-123")
      (initial_world 0)
    = (fst (demo_remote request 0), w')
    /\ trace w' = [request]
    /\ net w' = snd (demo_remote request 0)
    /\ (true = true ->
          request = PagesUpdate demo_client
                      (VObj [("page_id", VStr "page-123"); ("properties", VObj [])]))
    /\ (true = false ->
          request = PagesCreate demo_client
                      (VObj [ ("parent", VObj [("database_id", VStr "db-default")]);
                              ("properties", VObj []) ])).
Proof.
  exact (push_branch_selection nat demo_remote demo_config (initial_world 0)
           demo_client VUndefined (VObj []) (VStr "page-123") eq_refl).
Defined.

Lemma fetch_database_fallback_witness :
  exists database_id filter_part,
    trace (snd (fetchNotionRecords demo_remote demo_config (VStr "") VNull
                  (initial_world 0)))
    = [DatabasesQuery demo_client (VObj (("database_id", database_id) :: filter_part))]
    /\ (VStr "" = VUndefined \/ VStr "" = VStr "" -> database_id = VStr "db-default")
    /\ (false = false -> database_id = VStr "db-default")
    /\ (false = true -> database_id = VStr "")
    /\ (false = true -> filter_part = [("filter", VNull)])
    /\ (false = false -> filter_part = []).
Proof.
  exact (fetch_database_fallback nat demo_remote demo_config (initial_world 0)
           demo_client (VStr "") VNull eq_refl).
Defined.

Lemma unrecognized_direction_is_noop_witness :
  syncNotionData demo_remote demo_config (sync_options "both" [record_A])
    (initial_world 0)
  = (Ok {| pulled := []; pushed := []; errors := [] |}, initial_world 0).
Proof.
  apply (unrecognized_direction_is_noop nat demo_remote demo_config (initial_world 0)
           (sync_options "both" [record_A]) (VStr "both"));
    [reflexivity | discriminate ..].
Defined.


(** ** Sync isolation against a scripted remote *)

Lemma push_attempt_answer (R : Type) (remote : call -> R -> result value * R)
    (cfg : Config) (w : world R) (c : Client) (db record : value) :
  the_client cfg w = Some c ->
  is_nullish record = false ->
  let request :=
    push_request cfg c db (field_of_value record "properties")
      (js_or (field_of_value record "notionPageId") VNull) in
  fst (push_attempt remote cfg db record w) = fst (remote request (net w))
  /\ net (snd (push_attempt remote cfg db record w)) = snd (remote request (net w))
  /\ the_client cfg (snd (push_attempt remote cfg db record w)) = Some c.
Proof.
  intros Hc Hobj request. unfold push_attempt, bind, lift.
  rewrite !(get_prop_field record _ Hobj).
  rewrite (pushNotionRecord_run R remote cfg w c db _ _ Hc). fold request.
  destruct (remote request (net w)) as [[response|e] net']; repeat split.
Qed.

Lemma push_outcomes_scripted (cfg : Config) (c : Client) (db : value)
    (records : list value) :
  Forall (fun record => is_nullish record = false) records ->
  forall (script : list (result value)) (w : world (list (result value))),
    the_client cfg w = Some c ->
    net w = script ->
    length script = length records ->
    fst (push_outcomes scripted_remote cfg db records w) = combine records script.
Proof.
  intros Hrecords.
  induction Hrecords as [|record rest Hobj _ IH]; intros script w Hc Hnet Hlen.
  - reflexivity.
  - destruct script as [|answer script']; [discriminate Hlen|].
    simpl.
    destruct (push_attempt_answer _ scripted_remote cfg w c db record Hc Hobj)
      as (Hanswer & Hrest & Hclient).
    rewrite Hnet in Hanswer, Hrest. simpl in Hanswer, Hrest.
    destruct (push_attempt scripted_remote cfg db record w) as [outcome w1].
    simpl in Hanswer, Hrest, Hclient. subst outcome.
    specialize (IH script' w1 Hclient Hrest ltac:(simpl in Hlen; lia)).
    destruct (push_outcomes scripted_remote cfg db rest w1) as [outcomes w2].
    simpl in *. now rewrite IH.
Qed.

(** Whatever the script, a push-only sync over records (objects) returns the
    scripted responses in [pushed] and the scripted failures, paired with
    their records, in [errors]. *)
Corollary sync_push_follows_script :
  forall (cfg : Config) (c : Client) (w : world (list (result value)))
         (options db : value) (records : list value) (script : list (result value)),
    the_client cfg w = Some c ->
    net w = script ->
    length script = length records ->
    Forall (fun record => is_nullish record = false) records ->
    get_prop options "databaseId" = Ok db ->
    get_prop options "direction" = Ok (VStr "push") ->
    get_prop options "mcpRecords" = Ok (VArr records) ->
    fst (syncNotionData scripted_remote cfg options w)
    = Ok {| pulled := [];
            pushed := responses_of (combine records script);
            errors := failures_of (combine records script) |}.
Proof.
  intros cfg c w options db records script Hc Hnet Hlen Hrecords Hdb Hdir Hrecs.
  rewrite (syncNotionData_push_run _ scripted_remote cfg w options db records
             Hdb Hdir Hrecs).
  simpl.
  now rewrite (push_outcomes_scripted cfg c db records Hrecords script w Hc Hnet Hlen).
Qed.


(** * Further properties of the schema transforms *)

Lemma opt_prop_field (v : value) (k : string) :
  opt_prop v k = Ok (field_of_value v k).
Proof. destruct v; reflexivity. Qed.

Lemma opt_first_returns (v : value) : exists h, opt_first v = Ok h.
Proof. destruct v; simpl; eexists; reflexivity. Qed.

Lemma get_prop_nullish (v : value) (k : string) :
  is_nullish v = true -> get_prop v k = Throw (cannot_read (nullish_name v) k).
Proof. destruct v; simpl; intros; try discriminate; reflexivity. Qed.

Lemma text_chain_returns (props : value) (outer key : string) :
  is_nullish props = false ->
  exists c,
    (let? n := get_prop props outer in
     let? t := opt_prop n key in
     let? h := opt_first t in
     let? x := opt_prop h "text" in
     opt_prop x "content") = Ok c.
Proof.
  intros Hprops. rewrite (get_prop_field props outer Hprops). cbn [bindR].
  rewrite opt_prop_field. cbn [bindR].
  destruct (opt_first_returns (field_of_value (field_of_value props outer) key))
    as [h ->]. cbn [bindR].
  rewrite opt_prop_field. cbn [bindR]. rewrite opt_prop_field.
  eexists; reflexivity.
Qed.

Lemma status_returns (props : value) :
  is_nullish props = false ->
  exists c,
    (let? s := get_prop props "Status" in
     let? sel := opt_prop s "select" in
     opt_prop sel "name") = Ok c.
Proof.
  intros Hprops. rewrite (get_prop_field props _ Hprops). cbn [bindR].
  rewrite opt_prop_field. cbn [bindR]. rewrite opt_prop_field.
  eexists; reflexivity.
Qed.

Lemma mapR_names (elems : list value) :
  forallb non_nullish elems = true ->
  mapR (fun tag => get_prop tag "name") elems = Ok (option_names elems).
Proof.
  induction elems as [|x elems IH]; simpl; [reflexivity|].
  intros H. apply andb_true_iff in H as [Hx Hrest].
  unfold non_nullish in Hx. apply negb_true_iff in Hx.
  rewrite (get_prop_field x "name" Hx), (IH Hrest). reflexivity.
Qed.

Lemma mapR_names_throws (elems : list value) :
  forallb non_nullish elems = false ->
  exists e, mapR (fun tag => get_prop tag "name") elems = Throw e
            /\ err_name e = "TypeError".
Proof.
  induction elems as [|x elems IH]; simpl; [discriminate|].
  intros H. apply andb_false_iff in H as [Hx | Hrest].
  - unfold non_nullish in Hx. apply negb_false_iff in Hx.
    rewrite (get_prop_nullish x "name" Hx). simpl. eexists; split; reflexivity.
  - destruct (get_prop x "name") as [y|e] eqn:Hy; simpl.
    + destruct (IH Hrest) as (e & -> & He). simpl. eexists; split; [reflexivity|exact He].
    + destruct x; simpl in Hy; try discriminate;
        injection Hy as <-; eexists; split; reflexivity.
Qed.

Lemma tags_returns (props : value) :
  is_nullish props = false ->
  mappable_options (multi_select_of props) = true ->
  exists t,
    (let? t := get_prop props "Tags" in
     let? ms := opt_prop t "multi_select" in
     if is_nullish ms then Ok VUndefined
     else
       let? names := call_map ms "props.Tags?.multi_select?.map"
                       (fun tag => get_prop tag "name") in
       Ok (VArr names)) = Ok t.
Proof.
  intros Hprops Hms. rewrite (get_prop_field props _ Hprops). cbn [bindR].
  rewrite opt_prop_field. cbn [bindR]. fold (multi_select_of props).
  unfold mappable_options in Hms.
  destruct (is_nullish (multi_select_of props)) eqn:Hnull; [eexists; reflexivity|].
  simpl in Hms.
  destruct (multi_select_of props) as [ | | ?b | ?n | ?s | elems | ?fs ];
    try discriminate.
  simpl in Hms. simpl call_map. rewrite (mapR_names elems Hms). eexists; reflexivity.
Qed.

Lemma tags_throws (props : value) :
  is_nullish props = false ->
  mappable_options (multi_select_of props) = false ->
  exists e,
    (let? t := get_prop props "Tags" in
     let? ms := opt_prop t "multi_select" in
     if is_nullish ms then Ok VUndefined
     else
       let? names := call_map ms "props.Tags?.multi_select?.map"
                       (fun tag => get_prop tag "name") in
       Ok (VArr names)) = Throw e
    /\ err_name e = "TypeError".
Proof.
  intros Hprops Hms. rewrite (get_prop_field props _ Hprops). cbn [bindR].
  rewrite opt_prop_field. cbn [bindR]. fold (multi_select_of props).
  unfold mappable_options in Hms. apply orb_false_iff in Hms as [Hnull Harr].
  rewrite Hnull.
  destruct (multi_select_of props) as [ | | ?b | ?n | ?s | elems | ?fs ];
    try discriminate; simpl call_map; try (eexists; split; reflexivity).
  simpl in Harr. destruct (mapR_names_throws elems Harr) as (e & -> & He).
  exists e. split; [reflexivity|exact He].
Qed.

Lemma remote_to_local_run (page : value) :
  is_nullish page = false ->
  is_nullish (field_of_value page "properties") = false ->
  (mappable_options (multi_select_of (field_of_value page "properties")) = true ->
   exists name description status tags,
     transformNotionToMCP page =
     Ok (VObj [ ("notionPageId", field_of_value page "id");
                ("name", name); ("description", description);
                ("status", status); ("tags", tags);
                ("createdAt", field_of_value page "createdTime");
                ("updatedAt", field_of_value page "lastEditedTime") ]))
  /\ (mappable_options (multi_select_of (field_of_value page "properties")) = false ->
      exists e, transformNotionToMCP page = Throw e /\ err_name e = "TypeError").
Proof.
  intros Hpage Hprops.
  destruct (text_chain_returns _ "Name" "title" Hprops) as [n Hn].
  destruct (text_chain_returns _ "Description" "rich_text" Hprops) as [d Hd].
  destruct (status_returns _ Hprops) as [s Hs].
  split; intros Hms.
  - destruct (tags_returns _ Hprops Hms) as [t Ht].
    unfold transformNotionToMCP.
    rewrite !(get_prop_field page _ Hpage). cbn [bindR].
    rewrite Hn, Hd, Hs, Ht. cbn [bindR].
    do 4 eexists. reflexivity.
  - destruct (tags_throws _ Hprops Hms) as (e & Ht & He).
    unfold transformNotionToMCP.
    rewrite !(get_prop_field page _ Hpage). cbn [bindR].
    rewrite Hn, Hd, Hs, Ht. cbn [bindR].
    exists e. split; [reflexivity|exact He].
Qed.

Lemma remote_to_local_no_properties (page : value) :
  is_nullish page = true \/ is_nullish (field_of_value page "properties") = true ->
  exists e, transformNotionToMCP page = Throw e /\ err_name e = "TypeError".
Proof.
  intros [Hpage | Hprops].
  - unfold transformNotionToMCP. rewrite (get_prop_nullish page _ Hpage).
    eexists; split; reflexivity.
  - destruct (is_nullish page) eqn:Hpage.
    + unfold transformNotionToMCP. rewrite (get_prop_nullish page _ Hpage).
      eexists; split; reflexivity.
    + unfold transformNotionToMCP.
      rewrite !(get_prop_field page _ Hpage). cbn [bindR].
      rewrite (get_prop_nullish _ "Name" Hprops).
      eexists; split; reflexivity.
Qed.

(** X2. [transformNotionToMCP] returns exactly when the page and its
    [properties] are neither [undefined] nor [null] and the multi-select under
    [Tags] is missing or an array without [undefined]/[null] elements; every
    other input makes it throw a TypeError.  What it returns always has the
    seven keys of a local record, with the page id and the two timestamps
    copied. *)
Theorem remote_to_local_returns_exactly :
  forall page : value,
    ((exists L, transformNotionToMCP page = Ok L)
     <-> (is_nullish page = false
          /\ is_nullish (field_of_value page "properties") = false
          /\ mappable_options
               (multi_select_of (field_of_value page "properties")) = true))
    /\ (forall e, transformNotionToMCP page = Throw e -> err_name e = "TypeError")
    /\ (forall L, transformNotionToMCP page = Ok L ->
          exists name description status tags,
            L = VObj [ ("notionPageId", field_of_value page "id");
                       ("name", name); ("description", description);
                       ("status", status); ("tags", tags);
                       ("createdAt", field_of_value page "createdTime");
                       ("updatedAt", field_of_value page "lastEditedTime") ]).
Proof.
  intros page.
  destruct (is_nullish page) eqn:Hpage.
  { destruct (remote_to_local_no_properties page (or_introl Hpage)) as (e & He & Hname).
    rewrite He. split; [split|split].
    - intros [L HL]. discriminate HL.
    - intros (H & _). discriminate H.
    - intros e' [= <-]. exact Hname.
    - intros L HL. discriminate HL. }
  destruct (is_nullish (field_of_value page "properties")) eqn:Hprops.
  { destruct (remote_to_local_no_properties page (or_intror Hprops)) as (e & He & Hname).
    rewrite He. split; [split|split].
    - intros [L HL]. discriminate HL.
    - intros (_ & H & _). discriminate H.
    - intros e' [= <-]. exact Hname.
    - intros L HL. discriminate HL. }
  destruct (remote_to_local_run page Hpage Hprops) as [Hok Hthrow].
  destruct (mappable_options (multi_select_of (field_of_value page "properties"))).
  - destruct (Hok eq_refl) as (n & d & s & t & Hrun). rewrite Hrun.
    split; [split|split].
    + intros _. repeat split.
    + intros _. eexists; reflexivity.
    + intros e H. discriminate H.
    + intros L [= <-]. exists n, d, s, t. reflexivity.
  - destruct (Hthrow eq_refl) as (e & He & Hname). rewrite He.
    split; [split|split].
    + intros [L HL]. discriminate HL.
    + intros (_ & _ & H). discriminate H.
    + intros e' [= <-]. exact Hname.
    + intros L HL. discriminate HL.
Qed.

(** C6 (amended). Both transforms return a value on every input of the
    declared shape, in which every nested field may be absent -- the name of a
    multi-select option too.  [transformNotionToMCP] yields the empty string
    (the empty array for tags) wherever the path to the name, the description,
    the status or the multi-select is missing, and the stored string wherever
    the path leads to one; [tags] holds the [name] of each option as it is, so
    an option without a name contributes [undefined], no default being applied
    to it.  An option that is itself [undefined] or [null] is outside the
    shape and makes [transformNotionToMCP] throw a TypeError. *)
Theorem transforms_total :
  (forall L, is_LocalRecord L = true ->
     exists properties, transformMCPToNotion L = Ok properties)
  /\ (forall page, is_RemoteRecord page = true ->
        exists props name description status tags,
          get_prop page "properties" = Ok props
          /\ transformNotionToMCP page =
             Ok (VObj [ ("notionPageId", field_of_value page "id");
                        ("name", VStr name);
                        ("description", VStr description);
                        ("status", VStr status);
                        ("tags", VArr tags);
                        ("createdAt", field_of_value page "createdTime");
                        ("updatedAt", field_of_value page "lastEditedTime") ])
          /\ (resolve props name_path = None -> name = "")
          /\ (resolve props description_path = None -> description = "")
          /\ (resolve props status_path = None -> status = "")
          /\ (resolve props tags_path = None -> tags = [])
          /\ (forall s, resolve props name_path = Some (VStr s) -> name = s)
          /\ (forall s, resolve props description_path = Some (VStr s) -> description = s)
          /\ (forall s, resolve props status_path = Some (VStr s) -> status = s)
          /\ (forall opts, resolve props tags_path = Some (VArr opts) ->
                tags = option_names opts)
          /\ forallb (optional is_string) tags = true)
  /\ (forall (page : value) (opts : list value),
        is_nullish page = false ->
        is_nullish (field_of_value page "properties") = false ->
        multi_select_of (field_of_value page "properties") = VArr opts ->
        forallb non_nullish opts = false ->
        exists e, transformNotionToMCP page = Throw e /\ err_name e = "TypeError").
Proof.
  split; [|split].
  - intros L HL. split_value L.
    unfold is_LocalRecord, object_with in HL; simpl in HL. split_andb.
    unfold transformMCPToNotion; simpl.
    match goal with
    | H : optional (array_of is_string) _ = true |- _ =>
        unfold field_of in H; rename H into Htags
    end.
    destruct (own_prop "tags" fields) as [t|]; [|eexists; reflexivity].
    destruct t as [ | | ?b | ?n | ?s | tags | ?fs ]; try discriminate Htags;
      simpl; try (eexists; reflexivity).
    rewrite mapR_wrap_name; eexists; reflexivity.
  - intros page Hpage.
    destruct page as [ | | ?b | ?n | ?s | ?elems | fields ]; try discriminate Hpage.
    unfold is_RemoteRecord, object_with in Hpage; simpl in Hpage. split_andb.
    match goal with
    | H : is_properties ?p = true |- _ =>
        destruct p as [ | | ?b | ?n | ?s | ?l | props ] eqn:Hprops;
          try discriminate H; rename H into Hshape
    end.
    unfold is_properties, object_with in Hshape; simpl in Hshape. split_andb.
    destruct (text_chain_read props "Name" "title") as (n & Hn & Hname);
      [assumption|].
    destruct (text_chain_read props "Description" "rich_text") as (d & Hd & Hdesc);
      [assumption|].
    destruct (status_read props) as (s & Hs & Hstatus); [assumption|].
    destruct (tags_read props) as (t & Ht & Htags & Hstr); [assumption|].
    exists (VObj props), (string_at (VObj props) name_path),
      (string_at (VObj props) description_path),
      (string_at (VObj props) status_path), (tags_at (VObj props) tags_path).
    split; [unfold get_prop; fold (field_of fields "properties"); now rewrite Hprops|].
    split.
    { unfold transformNotionToMCP.
      change (get_prop (VObj fields) "properties")
        with (Ok (A:=value) (field_of fields "properties")).
      rewrite Hprops. cbn [bindR].
      change (get_prop (VObj fields) "id") with (Ok (A:=value) (field_of fields "id")).
      cbn [bindR].
      rewrite Hn, Hd, Hs, Ht. cbn [bindR].
      rewrite Hname, Hdesc, Hstatus, Htags. reflexivity. }
    repeat match goal with |- _ /\ _ => split end; try exact Hstr; intros;
      unfold string_at, tags_at;
      match goal with H : resolve _ _ = _ |- _ => now rewrite H end.
  - intros page opts Hpage Hprops Hms Hbad.
    destruct (remote_to_local_run page Hpage Hprops) as [_ Hthrow].
    apply Hthrow. unfold mappable_options. rewrite Hms. exact Hbad.
Qed.



Lemma transforms_total_witness :
  (exists properties,
     transformMCPToNotion (VObj [("name", VStr "Search"); ("tags", VArr [VStr "ml"])])
     = Ok properties)
  /\ (exists L, transformNotionToMCP page_with_unnamed_option = Ok L)
  /\ (exists e, transformNotionToMCP page_with_null_option = Throw e
                 /\ err_name e = "TypeError").
Proof.
  destruct transforms_total as (Hlocal & Hremote & Hthrow).
  split; [|split].
  - apply Hlocal. reflexivity.
  - destruct (Hremote page_with_unnamed_option)
      as (props & name & description & status & tags & _ & Hrun & _);
      [reflexivity|].
    eexists. exact Hrun.
  - apply (Hthrow page_with_null_option [VNull]); reflexivity.
Defined.

(** C6, as stated, fails: the page below is of the declared shape and the
    path to the name of its multi-select option is missing, yet the tag it
    yields is [undefined], not a default; and a [null] option makes the
    transform throw. *)
Lemma unnamed_option_is_not_defaulted :
  is_RemoteRecord page_with_unnamed_option = true
  /\ resolve (field_of_value page_with_unnamed_option "properties")
       [Key "Tags"; Key "multi_select"; First; Key "name"] = None
  /\ transformNotionToMCP page_with_unnamed_option
     = Ok (VObj [ ("notionPageId", VStr "p1"); ("name", VStr "");
                  ("description", VStr ""); ("status", VStr "");
                  ("tags", VArr [VUndefined]);
                  ("createdAt", VStr "t1"); ("updatedAt", VStr "t2") ])
  /\ transformNotionToMCP page_with_null_option = Throw (cannot_read "null" "name").
Proof. repeat split. Qed.

Lemma local_to_remote_run (L : value) :
  is_nullish L = false ->
  (mappable_tags (field_of_value L "tags") = true ->
   exists multi_select,
     transformMCPToNotion L =
     Ok (VObj
       [ ("Name", VObj
           [("title", VArr
               [VObj [("text",
                       VObj [("content",
                              js_or (field_of_value L "name") (VStr "Untitled"))])]])]);
         ("Description", VObj
           [("rich_text", VArr
               [VObj [("text",
                       VObj [("content",
                              js_or (field_of_value L "description") (VStr ""))])]])]);
         ("Status", VObj
           [("select",
             VObj [("name", js_or (field_of_value L "status") (VStr "Draft"))])]);
         ("Tags", VObj [("multi_select", VArr multi_select)]) ])
     /\ (truthy (field_of_value L "tags") = false -> multi_select = [])
     /\ (forall ts, field_of_value L "tags" = VArr ts ->
           multi_select = map (fun tag => VObj [("name", tag)]) ts))
  /\ (mappable_tags (field_of_value L "tags") = false ->
      exists e, transformMCPToNotion L = Throw e /\ err_name e = "TypeError").
Proof.
  intros HL. unfold transformMCPToNotion, mappable_tags.
  rewrite !(get_prop_field L _ HL). cbn [bindR].
  change (js_or (field_of_value L "tags") (VArr []))
    with (if truthy (field_of_value L "tags")
          then field_of_value L "tags" else VArr []).
  destruct (truthy (field_of_value L "tags")) eqn:Htruthy; simpl negb; simpl orb.
  - destruct (field_of_value L "tags") as [ | | ?b | ?n | ?s | ts | ?fs ] eqn:Htags;
      simpl in Htruthy; try discriminate Htruthy;
      simpl is_array; (split; intros H; try discriminate H);
      try (simpl; eexists; split; reflexivity).
    simpl call_map. rewrite mapR_wrap_name. cbn [bindR].
    eexists. split; [reflexivity|]. split; [discriminate|].
    intros ts' [= <-]. reflexivity.
  - split; intros H; [|discriminate H].
    simpl. eexists. split; [reflexivity|]. split; [reflexivity|].
    intros ts Hts. rewrite Hts in Htruthy. discriminate Htruthy.
Qed.

(** X1. [transformMCPToNotion] returns exactly when its argument is neither
    [undefined] nor [null] and [tags] is falsy or an array; a truthy [tags]
    that is not an array (a string of tags, say) makes it throw a TypeError,
    as does a missing argument. *)
Theorem local_to_remote_returns_exactly :
  forall L : value,
    ((exists properties, transformMCPToNotion L = Ok properties)
     <-> (is_nullish L = false /\ mappable_tags (field_of_value L "tags") = true))
    /\ (forall e, transformMCPToNotion L = Throw e -> err_name e = "TypeError").
Proof.
  intros L. destruct (is_nullish L) eqn:HL.
  { unfold transformMCPToNotion. rewrite (get_prop_nullish L _ HL). simpl.
    split; [split|].
    - intros [p Hp]. discriminate Hp.
    - intros [H _]. discriminate H.
    - intros e [= <-]. reflexivity. }
  destruct (local_to_remote_run L HL) as [Hok Hthrow].
  destruct (mappable_tags (field_of_value L "tags")).
  - destruct (Hok eq_refl) as (ms & Hrun & _). rewrite Hrun.
    split; [split|].
    + intros _. split; reflexivity.
    + intros _. eexists; reflexivity.
    + intros e H. discriminate H.
  - destruct (Hthrow eq_refl) as (e & He & Hname). rewrite He.
    split; [split|].
    + intros [p Hp]. discriminate Hp.
    + intros [_ H]. discriminate H.
    + intros e' [= <-]. exact Hname.
Qed.

Lemma js_or_idem (x dflt : value) : js_or (js_or x dflt) dflt = js_or x dflt.
Proof.
  unfold js_or. destruct (truthy x) eqn:Hx; [now rewrite Hx|].
  destruct (truthy dflt); reflexivity.
Qed.

Lemma js_or_then_empty (x : value) (d : string) :
  js_or (js_or x (VStr d)) (VStr "") = js_or x (VStr d).
Proof.
  unfold js_or. destruct (truthy x) eqn:Hx; [now rewrite Hx|].
  destruct d; reflexivity.
Qed.

Lemma mappable_tags_cases (tags : value) :
  mappable_tags tags = true ->
  truthy tags = false \/ exists ts, tags = VArr ts.
Proof.
  unfold mappable_tags. destruct (truthy tags); [|now left].
  destruct tags; simpl; try discriminate. intros _. right. eexists; reflexivity.
Qed.

Lemma round_trip_run (L id createdTime lastEditedTime : value) :
  is_nullish L = false ->
  mappable_tags (field_of_value L "tags") = true ->
  round_trip L id createdTime lastEditedTime =
  Ok (VObj [ ("notionPageId", id);
             ("name", js_or (field_of_value L "name") (VStr "Untitled"));
             ("description", js_or (field_of_value L "description") (VStr ""));
             ("status", js_or (field_of_value L "status") (VStr "Draft"));
             ("tags", js_or (field_of_value L "tags") (VArr []));
             ("createdAt", createdTime);
             ("updatedAt", lastEditedTime) ]).
Proof.
  intros HL Htags.
  destruct (local_to_remote_run L HL) as [Hok _].
  destruct (Hok Htags) as (ms & Hrun & Hnone & Harr).
  unfold round_trip. rewrite Hrun. cbn [bindR].
  unfold transformNotionToMCP, stored_as. simpl.
  rewrite !js_or_then_empty.
  destruct (mappable_tags_cases _ Htags) as [Hfalsy | [ts Hts]].
  - rewrite (Hnone Hfalsy). simpl.
    replace (js_or (field_of_value L "tags") (VArr [])) with (VArr [])
      by (unfold js_or; now rewrite Hfalsy).
    reflexivity.
  - rewrite (Harr ts Hts), mapR_unwrap_name, Hts. reflexivity.
Qed.

(** X4. The round trip fills in the defaults: for every local record the
    transform accepts, transforming to the remote schema and back yields the
    record with [name || 'Untitled'], [description || ''], [status || 'Draft']
    and [tags || []] -- so a record without a name or status does not come back
    as it was. *)
Theorem round_trip_fills_defaults :
  forall L id createdTime lastEditedTime : value,
    is_nullish L = false ->
    mappable_tags (field_of_value L "tags") = true ->
    exists L',
      round_trip L id createdTime lastEditedTime = Ok L'
      /\ field_of_value L' "notionPageId" = id
      /\ field_of_value L' "name" = js_or (field_of_value L "name") (VStr "Untitled")
      /\ field_of_value L' "description"
         = js_or (field_of_value L "description") (VStr "")
      /\ field_of_value L' "status" = js_or (field_of_value L "status") (VStr "Draft")
      /\ field_of_value L' "tags" = js_or (field_of_value L "tags") (VArr [])
      /\ (truthy (field_of_value L "name") = false ->
            field_of_value L' "name" = VStr "Untitled")
      /\ (truthy (field_of_value L "status") = false ->
            field_of_value L' "status" = VStr "Draft").
Proof.
  intros L id ct lt HL Htags.
  rewrite (round_trip_run L id ct lt HL Htags).
  eexists. split; [reflexivity|]. simpl.
  repeat split; intros H; unfold js_or; now rewrite H.
Qed.

Lemma round_trip_fills_defaults_witness :
  exists L',
    round_trip (VObj [("description", VStr "Find things")])
      (VStr "p1") (VStr "t1") (VStr "t2") = Ok L'
    /\ field_of_value L' "name" = VStr "Untitled"
    /\ field_of_value L' "status" = VStr "Draft".
Proof.
  destruct (round_trip_fills_defaults (VObj [("description", VStr "Find things")])
              (VStr "p1") (VStr "t1") (VStr "t2") eq_refl eq_refl)
    as (L' & Hrun & _ & _ & _ & _ & _ & Hname & Hstatus).
  exists L'. split; [exact Hrun|]. split; [apply Hname | apply Hstatus]; reflexivity.
Defined.

Lemma mappable_js_or (tags : value) :
  mappable_tags tags = true -> mappable_tags (js_or tags (VArr [])) = true.
Proof.
  intros H. destruct (mappable_tags_cases tags H) as [Hfalsy | [ts ->]].
  - unfold js_or. now rewrite Hfalsy.
  - reflexivity.
Qed.

Lemma round_trip_normal (id n d s t createdTime lastEditedTime : value) :
  js_or n (VStr "Untitled") = n ->
  js_or d (VStr "") = d ->
  js_or s (VStr "Draft") = s ->
  js_or t (VArr []) = t ->
  mappable_tags t = true ->
  round_trip
    (VObj [ ("notionPageId", id); ("name", n); ("description", d); ("status", s);
            ("tags", t); ("createdAt", createdTime); ("updatedAt", lastEditedTime) ])
    id createdTime lastEditedTime
  = Ok (VObj [ ("notionPageId", id); ("name", n); ("description", d); ("status", s);
               ("tags", t); ("createdAt", createdTime);
               ("updatedAt", lastEditedTime) ]).
Proof.
  intros Hn Hd Hs Ht Hmap.
  rewrite round_trip_run; [|reflexivity|exact Hmap].
  cbv [field_of_value field_of own_prop String.eqb Ascii.eqb Bool.eqb].
  now rewrite Hn, Hd, Hs, Ht.
Qed.

(** X5. The round trip is a normalisation: a record that came out of it goes
    through it unchanged. *)
Theorem round_trip_idempotent :
  forall L L1 id createdTime lastEditedTime : value,
    round_trip L id createdTime lastEditedTime = Ok L1 ->
    round_trip L1 id createdTime lastEditedTime = Ok L1.
Proof.
  intros L L1 id ct lt Hrun.
  destruct (is_nullish L) eqn:HL.
  { unfold round_trip, transformMCPToNotion in Hrun.
    rewrite (get_prop_nullish L _ HL) in Hrun. discriminate Hrun. }
  destruct (mappable_tags (field_of_value L "tags")) eqn:Htags.
  - rewrite (round_trip_run L id ct lt HL Htags) in Hrun.
    injection Hrun as <-.
    apply round_trip_normal; try apply js_or_idem.
    now apply mappable_js_or.
  - destruct (local_to_remote_run L HL) as [_ Hthrow].
    destruct (Hthrow Htags) as (e & He & _).
    unfold round_trip in Hrun. rewrite He in Hrun. discriminate Hrun.
Qed.

Lemma round_trip_idempotent_witness :
  round_trip
    (VObj [ ("notionPageId", VStr "p1"); ("name", VStr "Untitled");
            ("description", VStr ""); ("status", VStr "Draft"); ("tags", VArr []);
            ("createdAt", VStr "t1"); ("updatedAt", VStr "t2") ])
    (VStr "p1") (VStr "t1") (VStr "t2")
  = Ok (VObj [ ("notionPageId", VStr "p1"); ("name", VStr "Untitled");
               ("description", VStr ""); ("status", VStr "Draft"); ("tags", VArr []);
               ("createdAt", VStr "t1"); ("updatedAt", VStr "t2") ]).
Proof.
  apply (round_trip_idempotent (VObj []) _ (VStr "p1") (VStr "t1") (VStr "t2")).
  reflexivity.
Defined.





(** * Further properties of the stateful operations *)

Section FurtherProperties.

Variable R : Type.
Variable remote : call -> R -> result value * R.
Variable cfg : Config.

Lemma page_to_record_defined (page : value) :
  is_nullish page = false -> page_to_record page = Ok (record_of_page page).
Proof.
  intros Hpage. unfold page_to_record, record_of_page.
  now rewrite !(get_prop_field page _ Hpage).
Qed.

Lemma mapR_pages (pages : list value) :
  forallb non_nullish pages = true ->
  mapR page_to_record pages = Ok (map record_of_page pages).
Proof.
  induction pages as [|page pages IH]; simpl; [reflexivity|].
  intros H. apply andb_true_iff in H as [Hpage Hrest].
  unfold non_nullish in Hpage. apply negb_true_iff in Hpage.
  now rewrite (page_to_record_defined page Hpage), (IH Hrest).
Qed.

Lemma mapR_pages_throws (pages : list value) :
  forallb non_nullish pages = false ->
  exists e, mapR page_to_record pages = Throw e /\ err_name e = "TypeError".
Proof.
  induction pages as [|page pages IH]; simpl; [discriminate|].
  intros H. apply andb_false_iff in H as [Hpage | Hrest].
  - unfold non_nullish in Hpage. apply negb_false_iff in Hpage.
    unfold page_to_record. rewrite (get_prop_nullish page _ Hpage). simpl.
    eexists; split; reflexivity.
  - destruct (is_nullish page) eqn:Hpage.
    + unfold page_to_record. rewrite (get_prop_nullish page _ Hpage). simpl.
      eexists; split; reflexivity.
    + rewrite (page_to_record_defined page Hpage). simpl.
      destruct (IH Hrest) as (e & -> & He). simpl.
      exists e. split; [reflexivity|exact He].
Qed.

(** X6. With a client available and the remote answering the query with a
    response whose [results] is an array of pages, [fetchNotionRecords]
    returns one record per page, in order, holding the page's [id],
    [properties], [created_time] and [last_edited_time], and logs nothing;
    a single [undefined] or [null] page makes the whole call throw a
    TypeError instead, after the request was sent, with one log entry. *)
Theorem fetch_maps_pages :
  forall (w : world R) (c : Client) (db filter response : value) (net' : R)
         (pages : list value),
    the_client cfg w = Some c ->
    remote (fetch_request cfg c db filter) (net w) = (Ok response, net') ->
    get_prop response "results" = Ok (VArr pages) ->
    (forallb non_nullish pages = true ->
     fetchNotionRecords remote cfg db filter w
       = (Ok (map record_of_page pages),
          after_call w c (fetch_request cfg c db filter) net' []))
    /\ (forallb non_nullish pages = false ->
        exists e,
          fetchNotionRecords remote cfg db filter w
            = (Throw e,
               after_call w c (fetch_request cfg c db filter) net'
                 [ConsoleError "Error fetching Notion records:" e])
          /\ err_name e = "TypeError").
Proof.
  intros w c db filter response net' pages Hc Hremote Hresults.
  rewrite (fetchNotionRecords_run R remote cfg w c db filter Hc), Hremote.
  unfold records_of_response. rewrite Hresults. cbn [bindR]. simpl call_map.
  split; intros Hpages.
  - now rewrite (mapR_pages pages Hpages).
  - destruct (mapR_pages_throws pages Hpages) as (e & -> & He).
    exists e. split; [reflexivity|exact He].
Qed.

(** X7. [fetchNotionRecords] logs exactly its failures: with a client
    available, a call that throws has sent its request and appended one
    'Error fetching Notion records:' entry carrying the error it throws, and a
    call that returns has appended nothing to the console. *)
Theorem fetch_logs_its_failures :
  forall (w w' : world R) (c : Client) (db filter : value)
         (outcome : result (list value)),
    the_client cfg w = Some c ->
    fetchNotionRecords remote cfg db filter w = (outcome, w') ->
    trace w' = (trace w ++ [fetch_request cfg c db filter])%list
    /\ console w'
       = (console w
          ++ match outcome with
             | Ok _ => []
             | Throw e => [ConsoleError "Error fetching Notion records:" e]
             end)%list.
Proof.
  intros w w' c db filter outcome Hc.
  rewrite (fetchNotionRecords_run R remote cfg w c db filter Hc).
  destruct (remote _ (net w)) as [[response|e] net'];
    [destruct (records_of_response response)|];
    intros [= <- <-]; split; reflexivity.
Qed.

(** X8. [pushNotionRecord] logs exactly its failures: with a client
    available, a call that throws has appended one 'Error pushing Notion
    record:' entry carrying the error it throws, and a call that returns has
    appended nothing to the console. *)
Theorem push_logs_its_failures :
  forall (w w' : world R) (c : Client) (db data pageId : value)
         (outcome : result value),
    the_client cfg w = Some c ->
    pushNotionRecord remote cfg db data pageId w = (outcome, w') ->
    console w'
    = (console w
       ++ match outcome with
          | Ok _ => []
          | Throw e => [ConsoleError "Error pushing Notion record:" e]
          end)%list.
Proof.
  intros w w' c db data pageId outcome Hc.
  rewrite (pushNotionRecord_run R remote cfg w c db data pageId Hc).
  destruct (remote _ (net w)) as [[response|e] net'];
    intros [= <- <-]; reflexivity.
Qed.

(** X9. An update does not look at the database: when [pageId] is present
    (truthy), [pushNotionRecord] behaves the same whatever [databaseId] it is
    given, in every state. *)
Theorem update_ignores_database :
  forall (w : world R) (db1 db2 data pageId : value),
    truthy pageId = true ->
    pushNotionRecord remote cfg db1 data pageId w
    = pushNotionRecord remote cfg db2 data pageId w.
Proof.
  intros w db1 db2 data pageId Hpage.
  destruct (the_client cfg w) as [c|] eqn:Hc.
  - rewrite !(pushNotionRecord_run R remote cfg w c _ data pageId Hc).
    unfold push_request. rewrite Hpage. reflexivity.
  - now rewrite !(pushNotionRecord_missing R remote cfg w _ data pageId Hc).
Qed.

Lemma initializeClient_run (w : world R) :
  apiKey cfg <> "" ->
  initializeClient cfg w
  = (Ok {| auth := apiKey cfg |}, with_client w {| auth := apiKey cfg |}).
Proof.
  intros Hkey. unfold initializeClient, with_client. simpl.
  apply String.eqb_neq in Hkey. rewrite Hkey. reflexivity.
Qed.

(** X10. Calling [initializeClient] first is optional: with a credential
    configured, it returns the client, sends and logs nothing, and
    [fetchNotionRecords] and [pushNotionRecord] give the same outcome and
    leave the same state whether or not it was called before them. *)
Theorem explicit_initialization_is_optional :
  forall (w : world R),
    apiKey cfg <> "" ->
    client_consistent cfg w ->
    fst (initializeClient cfg w) = Ok {| auth := apiKey cfg |}
    /\ trace (snd (initializeClient cfg w)) = trace w
    /\ console (snd (initializeClient cfg w)) = console w
    /\ (forall db filter,
          fetchNotionRecords remote cfg db filter (snd (initializeClient cfg w))
          = fetchNotionRecords remote cfg db filter w)
    /\ (forall db data pageId,
          pushNotionRecord remote cfg db data pageId (snd (initializeClient cfg w))
          = pushNotionRecord remote cfg db data pageId w).
Proof.
  intros w Hkey Hw.
  rewrite (initializeClient_run w Hkey). simpl.
  assert (Hc : the_client cfg w = Some {| auth := apiKey cfg |}).
  { unfold the_client. destruct (notion w) as [c|] eqn:Hn.
    - destruct (Hw c Hn) as [-> _]. reflexivity.
    - apply String.eqb_neq in Hkey. now rewrite Hkey. }
  repeat split.
  - intros db filter.
    rewrite (fetchNotionRecords_run R remote cfg w _ db filter Hc).
    rewrite (fetchNotionRecords_run R remote cfg (with_client w _) _ db filter eq_refl).
    reflexivity.
  - intros db data pageId.
    rewrite (pushNotionRecord_run R remote cfg w _ db data pageId Hc).
    rewrite (pushNotionRecord_run R remote cfg (with_client w _) _ db data pageId
               eq_refl).
    reflexivity.
Qed.

(** X11. The module invariant -- a cached client was built from the
    configured, non-empty credential -- holds when the module is loaded and is
    kept by every exported operation, whatever the arguments and whatever the
    remote answers. *)
Theorem operations_keep_client_consistent :
  forall (w : world R),
    client_consistent cfg w ->
    client_consistent cfg (snd (initializeClient cfg w))
    /\ (forall db filter,
          client_consistent cfg (snd (fetchNotionRecords remote cfg db filter w)))
    /\ (forall db data pageId,
          client_consistent cfg (snd (pushNotionRecord remote cfg db data pageId w)))
    /\ (forall options,
          client_consistent cfg (snd (syncNotionData remote cfg options w))).
Proof.
  intros w Hw. split; [|split; [|split]].
  - now apply initializeClient_consistent.
  - intros db filter. now apply fetchNotionRecords_consistent.
  - intros db data pageId. now apply pushNotionRecord_consistent.
  - intros options. now apply syncNotionData_consistent.
Qed.

Lemma push_attempt_keeps_client (w : world R) (c : Client) (db record : value) :
  notion w = Some c ->
  notion (snd (push_attempt remote cfg db record w)) = Some c.
Proof.
  intros Hn. unfold push_attempt, bind, lift.
  destruct (get_prop record "properties") as [properties|e]; [|exact Hn].
  destruct (get_prop record "notionPageId") as [notionPageId|e]; [|exact Hn].
  assert (Hc : the_client cfg w = Some c) by (unfold the_client; now rewrite Hn).
  rewrite (pushNotionRecord_run R remote cfg w c _ _ _ Hc).
  destruct (remote _ (net w)) as [[response|e] net']; reflexivity.
Qed.

Lemma push_outcomes_keep_client (c : Client) (db : value) (records : list value) :
  forall w : world R,
    notion w = Some c ->
    notion (snd (push_outcomes remote cfg db records w)) = Some c.
Proof.
  induction records as [|record rest IH]; intros w Hn; [exact Hn|].
  simpl. pose proof (push_attempt_keeps_client w c db record Hn) as H1.
  destruct (push_attempt remote cfg db record w) as [outcome w1].
  specialize (IH w1 H1).
  destruct (push_outcomes remote cfg db rest w1) as [outcomes w2]. exact IH.
Qed.

Lemma fetch_keeps_client (w : world R) (c : Client) (db filter : value) :
  notion w = Some c ->
  notion (snd (fetchNotionRecords remote cfg db filter w)) = Some c.
Proof.
  intros Hn.
  assert (Hc : the_client cfg w = Some c) by (unfold the_client; now rewrite Hn).
  rewrite (fetchNotionRecords_run R remote cfg w c db filter Hc).
  destruct (remote _ (net w)) as [[response|e] net'];
    [destruct (records_of_response response)|]; reflexivity.
Qed.

(** X12. The client is a singleton: once one is cached, [fetchNotionRecords],
    [pushNotionRecord] and [syncNotionData] never replace or drop it, whatever
    their arguments and whatever the remote answers. *)
Theorem cached_client_persists :
  forall (w : world R) (c : Client),
    notion w = Some c ->
    (forall db filter,
       notion (snd (fetchNotionRecords remote cfg db filter w)) = Some c)
    /\ (forall db data pageId,
          notion (snd (pushNotionRecord remote cfg db data pageId w)) = Some c)
    /\ (forall options,
          notion (snd (syncNotionData remote cfg options w)) = Some c).
Proof.
  intros w c Hn.
  assert (Hc : the_client cfg w = Some c) by (unfold the_client; now rewrite Hn).
  split; [|split].
  - intros db filter. now apply fetch_keeps_client.
  - intros db data pageId.
    rewrite (pushNotionRecord_run R remote cfg w c db data pageId Hc).
    destruct (remote _ (net w)) as [[response|e] net']; reflexivity.
  - intros options. unfold syncNotionData.
    unfold bind at 1, lift at 1.
    destruct (destructure_prop options "databaseId") as [db|e]; [|exact Hn].
    unfold bind at 1, lift at 1.
    destruct (destructure_prop options "direction") as [direction|e]; [|exact Hn].
    unfold bind at 1, lift at 1.
    destruct (destructure_prop options "mcpRecords") as [mcpRecords|e]; [|exact Hn].
    set (d := default_param direction (VStr "pull")).
    set (recs := default_param mcpRecords (VArr [])).
    pose proof (fetch_keeps_client w c db VUndefined Hn) as Hfetch.
    unfold try_catch, bind, lift, ret, throw, console_write.
    destruct (strict_eq_str d "pull" || strict_eq_str d "bidirectional").
    + destruct (fetchNotionRecords remote cfg db VUndefined w) as [[fetched|e] w1];
        simpl in Hfetch; simpl; [|exact Hfetch].
      destruct (strict_eq_str d "push" || strict_eq_str d "bidirectional");
        simpl; [|exact Hfetch].
      destruct (iterate recs "mcpRecords") as [records|e]; simpl; [|exact Hfetch].
      rewrite (push_loop_outcomes R remote cfg). simpl.
      apply push_outcomes_keep_client. exact Hfetch.
    + destruct (strict_eq_str d "push" || strict_eq_str d "bidirectional");
        simpl; [|exact Hn].
      destruct (iterate recs "mcpRecords") as [records|e]; simpl; [|exact Hn].
      rewrite (push_loop_outcomes R remote cfg). simpl.
      now apply push_outcomes_keep_client.
Qed.

Lemma syncNotionData_pull_run (w : world R) (options db direction : value) :
  get_prop options "databaseId" = Ok db ->
  get_prop options "direction" = Ok direction ->
  direction = VUndefined \/ direction = VStr "pull" ->
  syncNotionData remote cfg options w =
  match fetchNotionRecords remote cfg db VUndefined w with
  | (Ok fetched, w1) =>
      (Ok {| pulled := fetched; pushed := []; errors := [] |},
       write_console w1 [LogPulled (length fetched)])
  | (Throw e, w1) => (Throw e, write_console w1 [ConsoleError "Sync error:" e])
  end.
Proof.
  intros Hdb Hdir Hcases.
  destruct (get_prop_defined options "direction" "mcpRecords" _ Hdir) as [recs Hrecs].
  unfold syncNotionData.
  rewrite !(destructure_prop_get options "direction" _ direction Hdir).
  rewrite Hdb, Hdir, Hrecs.
  unfold bind at 1, lift at 1. unfold bind at 1, lift at 1.
  unfold bind at 1, lift at 1.
  replace (default_param direction (VStr "pull")) with (VStr "pull")
    by (destruct Hcases as [-> | ->]; reflexivity).
  simpl strict_eq_str. simpl orb.
  unfold try_catch, bind, ret, throw, console_write, write_console.
  destruct (fetchNotionRecords remote cfg db VUndefined w) as [[fetched|e] w1];
    reflexivity.
Qed.

(** X13. A pull-only sync ('pull', or no direction at all) depends on nothing
    but [databaseId]: [mcpRecords] and any other option are ignored, so two
    option objects with the same [databaseId] give the same outcome and leave
    the same state. *)
Theorem pull_sync_depends_only_on_database :
  forall (w : world R) (options1 options2 db direction1 direction2 : value),
    get_prop options1 "databaseId" = Ok db ->
    get_prop options2 "databaseId" = Ok db ->
    get_prop options1 "direction" = Ok direction1 ->
    get_prop options2 "direction" = Ok direction2 ->
    direction1 = VUndefined \/ direction1 = VStr "pull" ->
    direction2 = VUndefined \/ direction2 = VStr "pull" ->
    syncNotionData remote cfg options1 w = syncNotionData remote cfg options2 w.
Proof.
  intros w o1 o2 db d1 d2 Hdb1 Hdb2 Hd1 Hd2 Hc1 Hc2.
  rewrite (syncNotionData_pull_run w o1 db d1 Hdb1 Hd1 Hc1).
  rewrite (syncNotionData_pull_run w o2 db d2 Hdb2 Hd2 Hc2).
  reflexivity.
Qed.

(** X14. A pull-only sync cannot filter and does not push: with a client
    available it sends exactly one query, whose only key is [database_id],
    and when it returns, [pulled] is what [fetchNotionRecords] returned and
    [pushed] and [errors] are empty. *)
Theorem pull_sync_sends_one_unfiltered_query :
  forall (w : world R) (c : Client) (options db direction : value),
    the_client cfg w = Some c ->
    get_prop options "databaseId" = Ok db ->
    get_prop options "direction" = Ok direction ->
    direction = VUndefined \/ direction = VStr "pull" ->
    trace (snd (syncNotionData remote cfg options w))
    = (trace w
       ++ [DatabasesQuery c
             (VObj [("database_id",
                     if truthy db then db else VStr (databaseId cfg))])])%list
    /\ (forall results w',
          syncNotionData remote cfg options w = (Ok results, w') ->
          fst (fetchNotionRecords remote cfg db VUndefined w) = Ok (pulled results)
          /\ pushed results = [] /\ errors results = []).
Proof.
  intros w c options db direction Hc Hdb Hdir Hcases.
  rewrite (syncNotionData_pull_run w options db direction Hdb Hdir Hcases).
  split.
  - rewrite (fetchNotionRecords_run R remote cfg w c db VUndefined Hc).
    unfold fetch_request. simpl.
    destruct (remote _ (net w)) as [[response|e] net'];
      [destruct (records_of_response response)|]; reflexivity.
  - intros results w'.
    destruct (fetchNotionRecords remote cfg db VUndefined w) as [[fetched|e] w1];
      intros [= <- <-]. repeat split.
Qed.

(** X15. A bidirectional sync is a pull-only sync followed by a push-only
    sync: if the pull throws, so does the bidirectional sync, in the same
    state; if the pull returns, the push that follows returns too, and the
    bidirectional sync returns the pull's [pulled] with the push's [pushed]
    and [errors], in the state the push leaves. *)
Theorem bidirectional_is_pull_then_push :
  forall (w : world R) (both pull push db : value) (records : list value),
    get_prop both "databaseId" = Ok db ->
    get_prop both "direction" = Ok (VStr "bidirectional") ->
    get_prop both "mcpRecords" = Ok (VArr records) ->
    get_prop pull "databaseId" = Ok db ->
    get_prop pull "direction" = Ok (VStr "pull") ->
    get_prop push "databaseId" = Ok db ->
    get_prop push "direction" = Ok (VStr "push") ->
    get_prop push "mcpRecords" = Ok (VArr records) ->
    match syncNotionData remote cfg pull w with
    | (Throw e, w1) => syncNotionData remote cfg both w = (Throw e, w1)
    | (Ok r1, w1) =>
        exists r2 w2,
          syncNotionData remote cfg push w1 = (Ok r2, w2)
          /\ syncNotionData remote cfg both w
             = (Ok {| pulled := pulled r1; pushed := pushed r2; errors := errors r2 |},
                w2)
    end.
Proof.
  intros w both pull push db records Hdb Hdir Hrecs Hdb1 Hdir1 Hdb2 Hdir2 Hrecs2.
  rewrite (syncNotionData_pull_run w pull db _ Hdb1 Hdir1 (or_intror eq_refl)).
  destruct (fetchNotionRecords remote cfg db VUndefined w) as [[fetched|e] w1] eqn:Hfetch.
  - rewrite (syncNotionData_push_run R remote cfg _ push db records Hdb2 Hdir2 Hrecs2).
    rewrite (syncNotionData_bidirectional_run R remote cfg w w1 both db records fetched
               Hdb Hdir Hrecs Hfetch).
    do 2 eexists. split; reflexivity.
  - apply (pull_failure_is_fatal_run R remote cfg w w1 both db _ e Hdb Hdir);
      [right; right; reflexivity | exact Hfetch].
Qed.

Lemma push_attempt_requests (w : world R) (c : Client) (db record : value) :
  the_client cfg w = Some c ->
  trace (snd (push_attempt remote cfg db record w))
    = (trace w ++ requests_for cfg c db record)%list
  /\ the_client cfg (snd (push_attempt remote cfg db record w)) = Some c.
Proof.
  intros Hc. unfold requests_for.
  destruct (is_nullish record) eqn:Hrecord.
  - unfold push_attempt, bind, lift.
    rewrite (get_prop_nullish record _ Hrecord). simpl.
    rewrite app_nil_r. split; [reflexivity|exact Hc].
  - unfold push_attempt, bind, lift.
    rewrite !(get_prop_field record _ Hrecord).
    destruct (pushNotionRecord_effect R remote cfg w c db
                (field_of_value record "properties")
                (js_or (field_of_value record "notionPageId") VNull) Hc)
      as [Htrace Hclient].
    split; [|exact Hclient].
    rewrite Htrace. unfold push_request, js_or.
    destruct (truthy (field_of_value record "notionPageId")) eqn:Hpid.
    + rewrite Hpid. reflexivity.
    + reflexivity.
Qed.

Lemma push_outcomes_requests (c : Client) (db : value) (records : list value) :
  forall w : world R,
    the_client cfg w = Some c ->
    trace (snd (push_outcomes remote cfg db records w))
      = (trace w ++ flat_map (requests_for cfg c db) records)%list.
Proof.
  induction records as [|record rest IH]; intros w Hc.
  - simpl. now rewrite app_nil_r.
  - simpl push_outcomes.
    destruct (push_attempt_requests w c db record Hc) as [Htrace Hclient].
    destruct (push_attempt remote cfg db record w) as [outcome w1].
    simpl in Htrace, Hclient. specialize (IH w1 Hclient).
    destruct (push_outcomes remote cfg db rest w1) as [outcomes w2].
    simpl in *. rewrite IH, Htrace, <- app_assoc. reflexivity.
Qed.

(** X16. With a client available, a push-only sync sends exactly one request
    per record that is not [undefined] or [null], in the order of the
    records, whatever the remote answers: an update of [notionPageId] when it
    is truthy, a create under the database otherwise; a record that is
    [undefined] or [null] sends nothing. *)
Theorem push_sync_sends_one_request_per_record :
  forall (w : world R) (c : Client) (options db : value) (records : list value),
    the_client cfg w = Some c ->
    get_prop options "databaseId" = Ok db ->
    get_prop options "direction" = Ok (VStr "push") ->
    get_prop options "mcpRecords" = Ok (VArr records) ->
    trace (snd (syncNotionData remote cfg options w))
    = (trace w ++ flat_map (requests_for cfg c db) records)%list.
Proof.
  intros w c options db records Hc Hdb Hdir Hrecs.
  rewrite (syncNotionData_push_run R remote cfg w options db records Hdb Hdir Hrecs).
  simpl. now apply push_outcomes_requests.
Qed.

(** X17. A push-only sync with nothing to push ([mcpRecords] left out or
    empty) returns the empty result without touching the client: it works
    even when no credential is configured, sends nothing, and only logs that
    0 records were pushed. *)
Theorem push_sync_without_records_is_noop :
  forall (w : world R) (options db records : value),
    get_prop options "databaseId" = Ok db ->
    get_prop options "direction" = Ok (VStr "push") ->
    get_prop options "mcpRecords" = Ok records ->
    records = VUndefined \/ records = VArr [] ->
    syncNotionData remote cfg options w
    = (Ok {| pulled := []; pushed := []; errors := [] |},
       write_console w [LogPushed 0]).
Proof.
  intros w options db records Hdb Hdir Hrecs Hcases.
  unfold syncNotionData.
  rewrite !(destructure_prop_get options "direction" _ _ Hdir).
  rewrite Hdb, Hdir, Hrecs.
  unfold bind at 1, lift at 1. unfold bind at 1, lift at 1.
  unfold bind at 1, lift at 1.
  destruct Hcases as [-> | ->]; reflexivity.
Qed.

(** X18. [mcpRecords] must be iterable when pushing: with direction 'push' and
    [mcpRecords] [null], a boolean, a number or a plain object, the sync sends
    nothing and throws a TypeError, logged as a sync error -- [null] does not
    get the empty default that a left-out [mcpRecords] gets. *)
Theorem push_sync_needs_iterable_records :
  forall (w : world R) (options db records : value),
    get_prop options "databaseId" = Ok db ->
    get_prop options "direction" = Ok (VStr "push") ->
    get_prop options "mcpRecords" = Ok records ->
    records <> VUndefined ->
    is_array records = false ->
    is_string records = false ->
    exists e,
      syncNotionData remote cfg options w
      = (Throw e, write_console w [ConsoleError "Sync error:" e])
      /\ err_name e = "TypeError".
Proof.
  intros w options db records Hdb Hdir Hrecs Hundef Harr Hstr.
  unfold syncNotionData.
  rewrite !(destructure_prop_get options "direction" _ _ Hdir).
  rewrite Hdb, Hdir, Hrecs.
  unfold bind at 1, lift at 1. unfold bind at 1, lift at 1.
  unfold bind at 1, lift at 1.
  destruct records; try discriminate; try contradiction;
    eexists; split; reflexivity.
Qed.

Lemma try_catch_logged {A : Type} (body : M R A) (label : string) (w w' : world R)
    (e : JsError) :
  try_catch body
    (fun error => bind (console_write (ConsoleError label error))
                    (fun _ => throw error)) w = (Throw e, w') ->
  exists w1, body w = (Throw e, w1) /\ w' = write_console w1 [ConsoleError label e].
Proof.
  unfold try_catch, bind, console_write, throw, write_console.
  destruct (body w) as [[a|e0] w1]; [discriminate|].
  intros [= <- <-]. exists w1. split; reflexivity.
Qed.

(** X19. Every error a sync throws for an options object was logged as a
    sync error just before: the state it leaves ends with a 'Sync error:'
    console entry carrying the thrown error.  Only a missing options argument
    ([undefined] or [null]) is different: the TypeError of the destructuring is
    thrown with the state untouched. *)
Theorem sync_errors_are_logged :
  forall (w : world R) (options : value),
    (is_nullish options = true ->
     exists e, syncNotionData remote cfg options w = (Throw e, w)
               /\ err_name e = "TypeError")
    /\ (is_nullish options = false ->
        forall e w',
          syncNotionData remote cfg options w = (Throw e, w') ->
          exists w1, w' = write_console w1 [ConsoleError "Sync error:" e]).
Proof.
  intros w options. split.
  - intros Hnull. destruct options; try discriminate Hnull;
      eexists; split; reflexivity.
  - intros Hobj e w' Hrun. unfold syncNotionData in Hrun.
    assert (Hd : forall k, destructure_prop options k = Ok (field_of_value options k))
      by (intros k; destruct options; try discriminate Hobj; reflexivity).
    rewrite !Hd in Hrun.
    unfold bind at 1, lift at 1 in Hrun. unfold bind at 1, lift at 1 in Hrun.
    unfold bind at 1, lift at 1 in Hrun.
    apply try_catch_logged in Hrun as (w1 & _ & ->). exists w1. reflexivity.
Qed.

End FurtherProperties.

Lemma fetch_maps_pages_witness :
  fetchNotionRecords one_page_remote demo_config VUndefined VUndefined (initial_world 0)
  = (Ok [VObj [ ("id", VStr "p1"); ("properties", VUndefined);
                ("createdTime", VStr "t1"); ("lastEditedTime", VUndefined) ]],
     after_call (initial_world 0) demo_client
       (fetch_request demo_config demo_client VUndefined VUndefined) 1 []).
Proof.
  exact (proj1 (fetch_maps_pages nat one_page_remote demo_config (initial_world 0)
                  demo_client VUndefined VUndefined one_page_response 1
                  [VObj [("id", VStr "p1"); ("created_time", VStr "t1")]]
                  eq_refl eq_refl eq_refl) eq_refl).
Defined.

Lemma fetch_logs_its_failures_witness :
  trace (snd (fetchNotionRecords down_remote demo_config (VStr "db1") VUndefined
                (initial_world 0)))
  = [fetch_request demo_config demo_client (VStr "db1") VUndefined]
  /\ console (snd (fetchNotionRecords down_remote demo_config (VStr "db1") VUndefined
                     (initial_world 0)))
     = [ConsoleError "Error fetching Notion records:"
          (mkError "RequestTimeoutError" "Request to Notion API has timed out")].
Proof.
  exact (fetch_logs_its_failures nat down_remote demo_config (initial_world 0) _
           demo_client (VStr "db1") VUndefined _ eq_refl eq_refl).
Defined.

Lemma push_logs_its_failures_witness :
  console (snd (pushNotionRecord demo_remote demo_config VUndefined (VObj [])
                  (VStr "B") (initial_world 0)))
  = [ConsoleError "Error pushing Notion record:"
       (mkError "APIResponseError" "validation failed")].
Proof.
  exact (push_logs_its_failures nat demo_remote demo_config (initial_world 0) _
           demo_client VUndefined (VObj []) (VStr "B") _ eq_refl eq_refl).
Defined.

Lemma update_ignores_database_witness :
  pushNotionRecord demo_remote demo_config (VStr "db1") (VObj []) (VStr "A")
    (initial_world 0)
  = pushNotionRecord demo_remote demo_config VUndefined (VObj []) (VStr "A")
      (initial_world 0).
Proof.
  apply (update_ignores_database nat demo_remote demo_config). reflexivity.
Defined.

Lemma explicit_initialization_is_optional_witness :
  fetchNotionRecords demo_remote demo_config (VStr "db1") VUndefined
    (snd (initializeClient demo_config (initial_world 0)))
  = fetchNotionRecords demo_remote demo_config (VStr "db1") VUndefined
      (initial_world 0).
Proof.
  destruct (explicit_initialization_is_optional nat demo_remote demo_config
              (initial_world 0))
    as (_ & _ & _ & Hfetch & _).
  - discriminate.
  - intros c Hc. discriminate Hc.
  - apply Hfetch.
Defined.

Lemma operations_keep_client_consistent_witness :
  client_consistent demo_config
    (snd (syncNotionData demo_remote demo_config
            (sync_options "bidirectional" [record_A; record_B]) (initial_world 0))).
Proof.
  destruct (operations_keep_client_consistent nat demo_remote demo_config
              (initial_world 0)) as (_ & _ & _ & Hsync).
  - intros c Hc. discriminate Hc.
  - apply Hsync.
Defined.

Lemma cached_client_persists_witness :
  notion (snd (syncNotionData down_remote demo_config
                 (sync_options "bidirectional" [record_A])
                 (with_client (initial_world 0) demo_client)))
  = Some demo_client.
Proof.
  destruct (cached_client_persists nat down_remote demo_config
              (with_client (initial_world 0) demo_client)
              demo_client eq_refl) as (_ & _ & Hsync).
  apply Hsync.
Defined.

Lemma pull_sync_depends_only_on_database_witness :
  syncNotionData demo_remote demo_config (VObj [("databaseId", VStr "db1")])
    (initial_world 0)
  = syncNotionData demo_remote demo_config (sync_options "pull" [record_A; record_B])
      (initial_world 0).
Proof.
  apply (pull_sync_depends_only_on_database nat demo_remote demo_config
           (initial_world 0) _ _ (VStr "db1") VUndefined (VStr "pull"));
    first [reflexivity | left; reflexivity | right; reflexivity].
Defined.

Lemma pull_sync_sends_one_unfiltered_query_witness :
  trace (snd (syncNotionData one_page_remote demo_config
                (sync_options "pull" [record_A]) (initial_world 0)))
  = [DatabasesQuery demo_client (VObj [("database_id", VStr "db1")])].
Proof.
  refine (proj1 (pull_sync_sends_one_unfiltered_query nat one_page_remote demo_config
                   (initial_world 0) demo_client (sync_options "pull" [record_A])
                   (VStr "db1") (VStr "pull") eq_refl eq_refl eq_refl _)).
  right. reflexivity.
Defined.

Lemma bidirectional_is_pull_then_push_witness :
  exists r2 w2,
    syncNotionData demo_remote demo_config (sync_options "push" [record_A; record_B])
      (snd (syncNotionData demo_remote demo_config
              (sync_options "pull" [record_A; record_B]) (initial_world 0)))
    = (Ok r2, w2)
    /\ syncNotionData demo_remote demo_config
         (sync_options "bidirectional" [record_A; record_B]) (initial_world 0)
       = (Ok {| pulled := []; pushed := pushed r2; errors := errors r2 |}, w2).
Proof.
  exact (bidirectional_is_pull_then_push nat demo_remote demo_config (initial_world 0)
           (sync_options "bidirectional" [record_A; record_B])
           (sync_options "pull" [record_A; record_B])
           (sync_options "push" [record_A; record_B])
           (VStr "db1") [record_A; record_B]
           eq_refl eq_refl eq_refl eq_refl eq_refl eq_refl eq_refl eq_refl).
Defined.

Lemma push_sync_sends_one_request_per_record_witness :
  trace (snd (syncNotionData demo_remote demo_config
                (sync_options "push" [record_B; VNull; record_C; record_A])
                (initial_world 0)))
  = [ PagesUpdate demo_client
        (VObj [("page_id", VStr "B"); ("properties", VObj [])]);
      PagesCreate demo_client
        (VObj [("parent", VObj [("database_id", VStr "db1")]);
               ("properties", VObj [])]);
      PagesUpdate demo_client
        (VObj [("page_id", VStr "A");
               ("properties", field_of_value record_A "properties")]) ].
Proof.
  exact (push_sync_sends_one_request_per_record nat demo_remote demo_config
           (initial_world 0) demo_client
           (sync_options "push" [record_B; VNull; record_C; record_A]) (VStr "db1")
           [record_B; VNull; record_C; record_A] eq_refl eq_refl eq_refl eq_refl).
Defined.

Lemma push_sync_without_records_is_noop_witness :
  syncNotionData demo_remote (notionConfig no_credential_env)
    (VObj [("direction", VStr "push")]) (initial_world 0)
  = (Ok {| pulled := []; pushed := []; errors := [] |},
     write_console (initial_world 0) [LogPushed 0]).
Proof.
  apply (push_sync_without_records_is_noop nat demo_remote
           (notionConfig no_credential_env) (initial_world 0)
           (VObj [("direction", VStr "push")]) VUndefined VUndefined);
    first [reflexivity | left; reflexivity].
Defined.

Lemma push_sync_needs_iterable_records_witness :
  exists e,
    syncNotionData demo_remote demo_config
      (VObj [("direction", VStr "push"); ("mcpRecords", VNull)]) (initial_world 0)
    = (Throw e, write_console (initial_world 0) [ConsoleError "Sync error:" e])
    /\ err_name e = "TypeError".
Proof.
  apply (push_sync_needs_iterable_records nat demo_remote demo_config (initial_world 0)
           (VObj [("direction", VStr "push"); ("mcpRecords", VNull)])
           VUndefined VNull);
    first [reflexivity | discriminate].
Defined.
